(** * pandas_mail_script: a shallow embedding and its properties

    The script reads its SMTP settings from the environment, loads and
    filters a recipient table, builds a small report, and mails the report
    to every recipient.  Each function of [pandas_mail_script.py] is
    translated below under its own name.

    Conventions.
    - A Python [str] is a Rocq [string] holding its UTF-8 bytes, so that
      [.encode("utf-8")] is the identity on the representation.
    - Python integers are [Z]; the integers of a data frame are 64-bit.
    - A function that may raise returns [exn + A]. *)

From Stdlib Require Import String Ascii List ZArith QArith Qround Lia Bool Arith.
From Stdlib Require Import OrdersEx Permutation.
Import ListNotations.
Local Close Scope Q_scope.
Local Open Scope string_scope.
Local Open Scope list_scope.
Local Open Scope nat_scope.
Set Warnings "-register-all".

(** ** Python strings *)

Module Py.

(** Bytes given by their codes. *)
Definition bytes (l : list nat) : list ascii := map ascii_of_nat l.

(** One-byte white space: U+0009..U+000D, U+001C..U+001F and U+0020. *)
Definition space1 (c : ascii) : bool :=
  let n := nat_of_ascii c in
  ((9 <=? n) && (n <=? 13)) || ((28 <=? n) && (n <=? 32)).

(** Two-byte white space: U+0085 and U+00A0. *)
Definition space2 (c1 c2 : ascii) : bool :=
  (nat_of_ascii c1 =? 194) &&
  ((nat_of_ascii c2 =? 133) || (nat_of_ascii c2 =? 160)).

(** Three-byte white space: U+1680, U+2000..U+200A, U+2028, U+2029,
    U+202F, U+205F and U+3000. *)
Definition space3 (c1 c2 c3 : ascii) : bool :=
  let a := nat_of_ascii c1 in
  let b := nat_of_ascii c2 in
  let c := nat_of_ascii c3 in
  ((a =? 225) && (b =? 154) && (c =? 128)) ||
  ((a =? 226) && (b =? 128) &&
     (((128 <=? c) && (c <=? 138)) || (c =? 168) || (c =? 169) || (c =? 175))) ||
  ((a =? 226) && (b =? 129) && (c =? 159)) ||
  ((a =? 227) && (b =? 128) && (c =? 128)).

(** Drop the white space at the front of a byte sequence.  With
    [back = true] the sequence is a reversed string, so that a character's
    bytes come last byte first. *)
Fixpoint drop_space (back : bool) (s : list ascii) : list ascii :=
  match s with
  | [] => []
  | c1 :: r1 =>
      if space1 c1 then drop_space back r1
      else
        match r1 with
        | [] => s
        | c2 :: r2 =>
            if (if back then space2 c2 c1 else space2 c1 c2)
            then drop_space back r2
            else
              match r2 with
              | [] => s
              | c3 :: r3 =>
                  if (if back then space3 c3 c2 c1 else space3 c1 c2 c3)
                  then drop_space back r3
                  else s
              end
        end
  end.

(** [str.strip()] with no argument. *)
Definition strip (s : string) : string :=
  string_of_list_ascii
    (rev (drop_space true (rev (drop_space false (list_ascii_of_string s))))).

(** [x in s] for strings. *)
Fixpoint contains (x s : string) : bool :=
  prefix x s ||
  match s with
  | EmptyString => false
  | String _ r => contains x r
  end.

(** [sep.join(l)]. *)
Definition join (sep : string) (l : list string) : string := String.concat sep l.

(** The truth value of a string: the empty string is false. *)
Definition truthy (s : string) : bool := negb (s =? "")%string.

Definition digit_of (c : ascii) : option Z :=
  let n := nat_of_ascii c in
  if (48 <=? n) && (n <=? 57) then Some (Z.of_nat (n - 48)) else None.

(** Decimal digits, where single underscores may separate digits. *)
Fixpoint digits (acc : Z) (after_digit : bool) (s : string) : option Z :=
  match s with
  | EmptyString => if after_digit then Some acc else None
  | String c r =>
      if Ascii.eqb c "_" then
        if after_digit then digits acc false r else None
      else
        match digit_of c with
        | Some d => digits (10 * acc + d)%Z true r
        | None => None
        end
  end.

(** White space for [int()] on ASCII text: the space characters of C,
    U+0009..U+000D and U+0020.  The separators U+001C..U+001F, which
    [str.strip] removes, are not among them. *)
Definition c_space (c : ascii) : bool :=
  let n := nat_of_ascii c in
  ((9 <=? n) && (n <=? 13)) || (n =? 32).

Fixpoint drop_c_space (s : list ascii) : list ascii :=
  match s with
  | [] => []
  | c :: r => if c_space c then drop_c_space r else s
  end.

Definition c_strip (s : string) : string :=
  string_of_list_ascii
    (rev (drop_c_space (rev (drop_c_space (list_ascii_of_string s))))).

(** [int(s)] in base 10 on ASCII text: surrounding white space, an optional
    sign, then digits; [None] stands for [ValueError]. *)
Definition int_ascii (s : string) : option Z :=
  match c_strip s with
  | String "-" r => option_map Z.opp (digits 0%Z false r)
  | String "+" r => digits 0%Z false r
  | t => digits 0%Z false t
  end.

(** ASCII text of at most 640 characters.  The interpreter's limit on the
    number of digits of an integer literal can be configured, but not below
    640. *)
Definition short_ascii (s : string) : bool :=
  forallb (fun c => nat_of_ascii c <? 128) (list_ascii_of_string s)
  && (String.length s <=? 640).

(** [int(s)] in base 10, [None] standing for [ValueError].  On short ASCII
    text the conversion is [int_ascii].  On other text it depends on the
    Unicode database (the decimal digits and the white space of all scripts
    are accepted) and on the configured limit on the number of digits; it is
    left to [beyond]. *)
Definition int (beyond : string -> option Z) (s : string) : option Z :=
  if short_ascii s then int_ascii s else beyond s.

End Py.

(** Exceptions the script can raise, with what identifies them. *)
Inductive exn : Type :=
| ValueError (literal : string)
| RuntimeError (message : string)
| KeyError (key : string)
| MissingCell (column : string).

(** ** load_env *)

(** The process environment after [load_dotenv()]. *)
Definition environ : Type := string -> option string.

(** A value stored in the configuration dictionary. *)
Inductive cfgval : Type :=
| CNone
| CStr (s : string)
| CInt (z : Z).

(** [os.getenv(k)] *)
Definition getenv (env : environ) (k : string) : cfgval :=
  match env k with
  | Some s => CStr s
  | None => CNone
  end.

(** [os.getenv(k, d)] *)
Definition getenv_default (env : environ) (k d : string) : string :=
  match env k with
  | Some s => s
  | None => d
  end.

(** The dictionary is kept as the list of its items in insertion order,
    which is the order [cfg.items()] iterates in. *)
Definition config : Type := list (string * cfgval).

Definition cfg_literal (env : environ) (port : Z) : config :=
  [ ("host", CStr (getenv_default env "SMTP_HOST" "smtp.gmail.com"));
    ("port", CInt port);
    ("user", getenv env "SMTP_USER");
    ("password", getenv env "SMTP_PASS");
    ("from_email", getenv env "FROM_EMAIL");
    ("fallback_to", getenv env "FALLBACK_TO") ].

(** [v in (None, "")] *)
Definition none_or_empty (v : cfgval) : bool :=
  match v with
  | CNone => true
  | CStr s => (s =? "")%string
  | CInt _ => false
  end.

Arguments none_or_empty : simpl never.

(** [k not in ("port",)] *)
Definition not_port (k : string) : bool := negb (k =? "port")%string.

(** [[k for k, v in cfg.items() if v in (None, "") and k not in ("port",)]] *)
Definition missing (cfg : config) : list string :=
  map fst (filter (fun kv => none_or_empty (snd kv) && not_port (fst kv)) cfg).

Definition missing_message (keys : list string) : string :=
  ("Missing required environment variables: " ++ Py.join ", " keys)%string.

Definition load_env (int_beyond : string -> option Z) (env : environ) : exn + config :=
  let port_text := getenv_default env "SMTP_PORT" "587" in
  match Py.int int_beyond port_text with
  | None => inl (ValueError port_text)
  | Some port =>
      let cfg := cfg_literal env port in
      match missing cfg with
      | [] => inr cfg
      | m => inl (RuntimeError (missing_message m))
      end
  end.

(** [cfg[k]] *)
Fixpoint cfg_get (cfg : config) (k : string) : cfgval :=
  match cfg with
  | [] => CNone
  | (k', v) :: rest => if (k' =? k)%string then v else cfg_get rest k
  end.

(** [cfg[k]] where the entry is a string. *)
Definition cfg_str (cfg : config) (k : string) : string :=
  match cfg_get cfg k with
  | CStr s => s
  | _ => ""
  end.

Definition cfg_port (cfg : config) : Z :=
  match cfg_get cfg "port" with
  | CInt z => z
  | _ => 0%Z
  end.

(** An environment given by its bindings, for running examples. *)
Fixpoint env_of (l : list (string * string)) : environ :=
  fun k =>
    match l with
    | [] => None
    | (k', v) :: rest => if (k' =? k)%string then Some v else env_of rest k
    end.

(** The keys of the configuration other than "port". *)
Definition required_keys : list string :=
  ["host"; "user"; "password"; "from_email"; "fallback_to"].

(** [int] that rejects all text that is not short ASCII text, for running
    examples on such text. *)
Definition int_ascii_only (s : string) : option Z := None.

(** The claim C3 as the specification words it.  The fields it names, each
    with the value the environment gives it (the host has a default); a
    field is reported when its value is absent or empty; for every
    environment with such a field, [load_env] fails with the message that
    lists all of them. *)
Definition required_fields (env : environ) : list (string * option string) :=
  [ ("host", Some (getenv_default env "SMTP_HOST" "smtp.gmail.com"));
    ("user", env "SMTP_USER");
    ("password", env "SMTP_PASS");
    ("from_email", env "FROM_EMAIL");
    ("fallback_to", env "FALLBACK_TO") ].

Definition absent_or_empty (v : option string) : bool :=
  match v with
  | None => true
  | Some s => (s =? "")%string
  end.

Definition absent_fields (env : environ) : list string :=
  map fst (filter (fun kv => absent_or_empty (snd kv)) (required_fields env)).

Definition reports_absent_fields (int_beyond : string -> option Z) (env : environ) : Prop :=
  absent_fields env <> [] ->
  load_env int_beyond env
  = inl (RuntimeError
           ("Missing required environment variables: "
            ++ Py.join ", " (absent_fields env))%string).

Definition env_port_abc : environ :=
  env_of [("SMTP_PORT", "abc"); ("SMTP_USER", "robot")].

(** The claim C8 as the specification words it: the four variables without
    a default are set and not empty, and SMTP_PORT is unset. *)
Definition four_set_port_unset (env : environ) : Prop :=
  (exists u, env "SMTP_USER" = Some u /\ u <> "")
  /\ (exists p, env "SMTP_PASS" = Some p /\ p <> "")
  /\ (exists f, env "FROM_EMAIL" = Some f /\ f <> "")
  /\ (exists t, env "FALLBACK_TO" = Some t /\ t <> "")
  /\ env "SMTP_PORT" = None.

Definition env_empty_host : environ :=
  env_of [("SMTP_HOST", ""); ("SMTP_USER", "robot"); ("SMTP_PASS", "secret");
          ("FROM_EMAIL", "robot@example.org"); ("FALLBACK_TO", "ops@example.org")].

Definition env_two_missing : environ :=
  env_of [("SMTP_PORT", "2525"); ("SMTP_USER", "robot"); ("FROM_EMAIL", "")].

Definition env_four_set : environ :=
  env_of [("SMTP_USER", "robot"); ("SMTP_PASS", "secret");
          ("FROM_EMAIL", "robot@example.org"); ("FALLBACK_TO", "ops@example.org")].

(** ** load_recipients *)

(** A cell of a column read with [dtype="string"]: a string, or NA. *)
Definition cell : Type := option string.

(** A cell of a column whose type the reader infers: missing (NaN), a
    boolean, an integer, a float (its value as a rational), or text. *)
Inductive value : Type :=
| VNA
| VBool (b : bool)
| VInt (z : Z)
| VFloat (q : Q)
| VStr (s : string).

(** A row of [recipients.csv] as [pd.read_csv] returns it.  The file has an
    "email" column; "name" and "active" are optional, and the fields of a
    column the file does not have are not looked at. *)
Record source_row : Type := {
  src_email : cell;
  src_name : cell;
  src_active : value
}.

Record source : Type := {
  has_name : bool;
  has_active : bool;
  src_rows : list source_row
}.

(** [x == True], as the comparison of a column with [True] decides it for
    one cell: [True] itself and the numbers equal to one. *)
Definition eq_True (v : value) : bool :=
  match v with
  | VNA => false
  | VBool b => b
  | VInt z => (z =? 1)%Z
  | VFloat q => Qeq_bool q 1
  | VStr _ => false
  end.

(** [.str.contains("@", na=False)] on one cell. *)
Definition contains_at (c : cell) : bool :=
  match c with
  | Some e => Py.contains "@" e
  | None => false
  end.

Definition cell_eqb (a b : cell) : bool :=
  match a, b with
  | Some x, Some y => (x =? y)%string
  | None, None => true
  | _, _ => false
  end.

(** [.fillna("")] on one cell. *)
Definition fillna (c : cell) : cell :=
  match c with
  | Some s => Some s
  | None => Some ""
  end.

(** [drop_duplicates(subset=["email"])]: a row is dropped when its email was
    seen in a row kept before it. *)
Fixpoint drop_duplicates (seen : list cell) (rows : list source_row)
  : list source_row :=
  match rows with
  | [] => []
  | r :: rest =>
      if existsb (cell_eqb (src_email r)) seen
      then drop_duplicates seen rest
      else r :: drop_duplicates (src_email r :: seen) rest
  end.

Section Recipients.

(** [str.lower]: the case mapping of the Unicode database, which is not part
    of the script. *)
Variable str_lower : string -> string.

(** [df["email"].str.strip().str.lower()] on one cell. *)
Definition normalize_cell (c : cell) : cell :=
  option_map (fun e => str_lower (Py.strip e)) c.

Definition normalize (r : source_row) : source_row :=
  {| src_email := normalize_cell (src_email r);
     src_name := src_name r;
     src_active := src_active r |}.

(** The "name" cell of the returned frame. *)
Definition name_cell (named : bool) (r : source_row) : cell :=
  fillna (if named then src_name r else Some "").

(** [file] is [None] when [csv_path] does not exist.  The result is the
    frame [df[["email", "name"]]], a list of (email, name) rows. *)
Definition load_recipients (file : option source) : list (cell * cell) :=
  match file with
  | None => []
  | Some df =>
      let rows := map normalize (src_rows df) in
      let rows :=
        if has_active df
        then filter (fun r => eq_True (src_active r)) rows
        else rows in
      let rows := filter (fun r => contains_at (src_email r)) rows in
      let rows := drop_duplicates [] rows in
      map (fun r => (src_email r, name_cell (has_name df) r)) rows
  end.

(** The normalised email of a source row. *)
Definition key (r : source_row) : cell := normalize_cell (src_email r).

(** The row of the result that a source row gives. *)
Definition view (df : source) (r : source_row) : cell * cell :=
  (key r, name_cell (has_name df) r).

(** A source row passes the two filters. *)
Definition eligible (df : source) (r : source_row) : bool :=
  (if has_active df then eq_True (src_active r) else true) && contains_at (key r).

(** [drop_duplicates], read on the source rows. *)
Fixpoint keep_first (seen : list cell) (rows : list source_row) : list source_row :=
  match rows with
  | [] => []
  | r :: rest =>
      if existsb (cell_eqb (key r)) seen
      then keep_first seen rest
      else r :: keep_first (key r :: seen) rest
  end.

(** The claim C2 about duplicates, as the specification words it: the row
    that survives for an email is the first row of the source with that
    normalised email. *)
Definition survivor_is_first_occurrence (df : source) : Prop :=
  forall e n, In (e, n) (load_recipients (Some df)) ->
  exists pre r post,
    src_rows df = pre ++ r :: post /\ view df r = (e, n)
    /\ forall r', In r' pre -> key r' <> key r.

End Recipients.

(** [str.lower] on ASCII text, for running examples. *)
Definition ascii_lower (s : string) : string :=
  string_of_list_ascii
    (map (fun c =>
            let n := nat_of_ascii c in
            if (65 <=? n) && (n <=? 90) then ascii_of_nat (n + 32) else c)
         (list_ascii_of_string s)).

(** [sub] holds the elements of a list that were kept, in their order. *)
Inductive subseq {A : Type} : list A -> list A -> Prop :=
| subseq_nil : subseq [] []
| subseq_keep x l1 l2 : subseq l1 l2 -> subseq (x :: l1) (x :: l2)
| subseq_drop x l1 l2 : subseq l1 l2 -> subseq l1 (x :: l2).

(** ** build_report *)

(** A data frame: the column labels and the rows, each row holding one cell
    per column. *)
Record frame : Type := {
  columns : list string;
  data : list (list value)
}.

(** A record of the input.  The quantity is an integer that fits in 64 bits,
    so that the "qty" column of the frame has the type int64. *)
Record item : Type := {
  sku : string;
  status : string;
  qty : Z
}.

Definition int64 (z : Z) : bool := (- 2 ^ 63 <=? z)%Z && (z <? 2 ^ 63)%Z.

(** Arithmetic on int64 wraps around. *)
Definition wrap64 (z : Z) : Z := ((z + 2 ^ 63) mod 2 ^ 64 - 2 ^ 63)%Z.

(** The float64 nearest to an integer, a tie going to the even significand
    of 53 bits.  Its value is an integer again. *)
Definition float_of_int (z : Z) : Z :=
  let a := Z.abs z in
  let e := (Z.log2 a + 1 - 53)%Z in
  if (e <=? 0)%Z then z
  else
    let q := Z.shiftr a e in
    let r := (a - Z.shiftl q e)%Z in
    let half := Z.shiftl 1 (e - 1) in
    let q := if (half <? r)%Z || ((r =? half)%Z && Z.odd q) then (q + 1)%Z else q in
    (Z.sgn z * Z.shiftl q e)%Z.

(** An integer as a cell of a float64 column. *)
Definition num (z : Z) : value := VFloat (inject_Z (float_of_int z)).

(** [pd.DataFrame(records)]: without records the frame has no columns. *)
Definition from_records (rs : list item) : frame :=
  match rs with
  | [] => {| columns := []; data := [] |}
  | _ :: _ =>
      {| columns := ["sku"; "status"; "qty"];
         data := map (fun r => [VStr (sku r); VStr (status r); VInt (qty r)]) rs |}
  end.

Fixpoint index_of (c : string) (cols : list string) : option nat :=
  match cols with
  | [] => None
  | c' :: rest =>
      if (c' =? c)%string then Some 0 else option_map S (index_of c rest)
  end.

Definition at_col (i : nat) (row : list value) : value := nth i row VNA.

(** The group keys: the distinct texts of the key column in increasing
    order; a missing key belongs to no group. *)
Fixpoint insert_key (k : string) (keys : list string) : list string :=
  match keys with
  | [] => [k]
  | k' :: rest =>
      match String.compare k k' with
      | Lt => k :: keys
      | Eq => keys
      | Gt => k' :: insert_key k rest
      end
  end.

Definition key_of (v : value) : option string :=
  match v with
  | VStr s => Some s
  | _ => None
  end.

Fixpoint group_keys (cells : list value) : list string :=
  match cells with
  | [] => []
  | v :: rest =>
      match key_of v with
      | Some k => insert_key k (group_keys rest)
      | None => group_keys rest
      end
  end.

Definition in_group (i : nat) (k : string) (row : list value) : bool :=
  match key_of (at_col i row) with
  | Some s => (s =? k)%string
  | None => false
  end.

(** The aggregation "count": the cells that are not missing. *)
Definition agg_count (cells : list value) : Z :=
  Z.of_nat (length (filter (fun v => match v with VNA => false | _ => true end) cells)).

(** The aggregation "sum" of an int64 column: each addition wraps around. *)
Definition agg_sum (cells : list value) : Z :=
  fold_right (fun v acc => match v with VInt z => wrap64 (z + acc) | _ => acc end)
             0%Z cells.

(** [df.groupby(by, as_index=False).agg(c1=(col1, "count"), c2=(col2, "sum"))] *)
Definition groupby_agg (df : frame) (by_ c1 col1 c2 col2 : string) : exn + frame :=
  match index_of by_ (columns df) with
  | None => inl (KeyError by_)
  | Some ib =>
      match index_of col1 (columns df), index_of col2 (columns df) with
      | Some i1, Some i2 =>
          let keys := group_keys (map (at_col ib) (data df)) in
          let row k :=
            let g := filter (in_group ib k) (data df) in
            [VStr k; VInt (agg_count (map (at_col i1) g));
             VInt (agg_sum (map (at_col i2) g))] in
          inr {| columns := [by_; c1; c2]; data := map row keys |}
      | None, _ => inl (KeyError col1)
      | _, None => inl (KeyError col2)
      end
  end.

(** [df.insert(0, label, v)] with one value for the whole column. *)
Definition insert0 (label : string) (v : value) (df : frame) : frame :=
  {| columns := label :: columns df; data := map (cons v) (data df) |}.

Definition has_col (cols : list string) (c : string) : bool :=
  existsb (String.eqb c) cols.

(** A cell of an int64 column that becomes float64. *)
Definition to_float (v : value) : value :=
  match v with
  | VInt z => num z
  | _ => v
  end.

(** A row of a frame with columns [cols], laid out on the columns [onto]
    next to the rows of a frame with columns [other].  A cell of a column
    the frame lacks is missing (NaN); a column that [other] lacks holds NaN
    in the result, so that its integers become floats. *)
Definition reindex (cols other onto : list string) (row : list value) : list value :=
  map (fun c => match index_of c cols with
                | Some i =>
                    if has_col other c then at_col i row else to_float (at_col i row)
                | None => VNA
                end) onto.

(** [pd.concat([a, b], ignore_index=True)] of two frames that have rows: the
    columns of [a], then those only [b] has. *)
Definition concat (a b : frame) : frame :=
  let cols := columns a ++ filter (fun c => negb (has_col (columns a) c)) (columns b) in
  {| columns := cols;
     data := map (reindex (columns a) (columns b) cols) (data a)
             ++ map (reindex (columns b) (columns a) cols) (data b) |}.

(** The body of [build_report] on the records [rs]. *)
Definition build_report_of (rs : list item) : exn + frame :=
  let df := from_records rs in
  match groupby_agg df "status" "total_skus" "sku" "total_qty" "qty" with
  | inl e => inl e
  | inr summary =>
      let summary := insert0 "section" (VStr "summary") summary in
      let df2 := insert0 "section" (VStr "detail") df in
      inr (concat summary df2)
  end.

Definition sample_data : list item :=
  [ {| sku := "D-235700"; status := "in_stock"; qty := 12 |};
    {| sku := "D-226994"; status := "low_stock"; qty := 2 |};
    {| sku := "D-211744"; status := "out_of_stock"; qty := 0 |} ].

Definition build_report : exn + frame := build_report_of sample_data.

(** [df.head(n)] *)
Definition head (n : nat) (df : frame) : frame :=
  {| columns := columns df; data := firstn n (data df) |}.

(** ** Base64, as the email package applies it *)

Module Base64.

Definition alphabet : string :=
  "ABCDEFGHIJKLMNOPQRSTUVWXYZabcdefghijklmnopqrstuvwxyz0123456789+/".

Definition pad : ascii := "=".
Definition newline : ascii := ascii_of_nat 10.

(** The character of a six-bit value. *)
Definition b2a (n : N) : ascii :=
  match String.get (N.to_nat n) alphabet with
  | Some c => c
  | None => pad
  end.

Fixpoint index_from (i : N) (c : ascii) (s : string) : option N :=
  match s with
  | EmptyString => None
  | String c' r => if Ascii.eqb c' c then Some i else index_from (N.succ i) c r
  end.

(** The six-bit value of a character, [None] outside the alphabet. *)
Definition a2b (c : ascii) : option N := index_from 0 c alphabet.

(** The four characters of three bytes. *)
Definition quad (a b c : ascii) : list ascii :=
  let x := N_of_ascii a in
  let y := N_of_ascii b in
  let z := N_of_ascii c in
  [ b2a (N.shiftr x 2);
    b2a (N.lor (N.shiftl (N.land x 3) 4) (N.shiftr y 4));
    b2a (N.lor (N.shiftl (N.land y 15) 2) (N.shiftr z 6));
    b2a (N.land z 63) ].

(** The characters of a byte sequence, the last group padded. *)
Fixpoint encode (bs : list ascii) : list ascii :=
  match bs with
  | [] => []
  | [a] =>
      let x := N_of_ascii a in
      [ b2a (N.shiftr x 2); b2a (N.shiftl (N.land x 3) 4); pad; pad ]
  | [a; b] =>
      let x := N_of_ascii a in
      let y := N_of_ascii b in
      [ b2a (N.shiftr x 2);
        b2a (N.lor (N.shiftl (N.land x 3) 4) (N.shiftr y 4));
        b2a (N.shiftl (N.land y 15) 2); pad ]
  | a :: b :: c :: rest => quad a b c ++ encode rest
  end.

(** [binascii.b2a_base64]: one line, ended by a newline. *)
Definition b2a_base64 (bs : list ascii) : list ascii := encode bs ++ [newline].

(** The slices [s[i:i+n]] for [i] in [range(0, len(s), n)]. *)
Fixpoint slices (fuel n : nat) (s : list ascii) : list (list ascii) :=
  match fuel with
  | 0 => []
  | S fuel' =>
      match s with
      | [] => []
      | _ :: _ => firstn n s :: slices fuel' n (skipn n s)
      end
  end.

(** [base64.encodebytes], which is also the body encoding of a text part
    in UTF-8: lines of 57 bytes, each encoded on its own. *)
Definition encodebytes (s : string) : string :=
  let bs := list_ascii_of_string s in
  string_of_list_ascii (flat_map b2a_base64 (slices (length bs) 57 bs)).

Definition byte (n : N) : ascii := ascii_of_N n.

Definition emit (b : ascii) (r : option (list ascii)) : option (list ascii) :=
  option_map (cons b) r.

(** The loop of [binascii.a2b_base64]: characters outside the alphabet are
    skipped, a complete pad sequence ends the input, and input that ends
    inside a group is an error ([None]). *)
Fixpoint a2b_loop (s : list ascii) (quad_pos : nat) (leftchar : N) (pads : nat)
  : option (list ascii) :=
  match s with
  | [] => if quad_pos =? 0 then Some [] else None
  | ch :: r =>
      if Ascii.eqb ch pad then
        if 2 <=? quad_pos then
          if 4 <=? quad_pos + S pads then Some []
          else a2b_loop r quad_pos leftchar (S pads)
        else a2b_loop r quad_pos leftchar pads
      else
        match a2b ch with
        | None => a2b_loop r quad_pos leftchar pads
        | Some v =>
            match quad_pos with
            | 0 => a2b_loop r 1 v 0
            | 1 => emit (byte (N.lor (N.shiftl leftchar 2) (N.shiftr v 4)))
                        (a2b_loop r 2 (N.land v 15) 0)
            | 2 => emit (byte (N.lor (N.shiftl leftchar 4) (N.shiftr v 2)))
                        (a2b_loop r 3 (N.land v 3) 0)
            | _ => emit (byte (N.lor (N.shiftl leftchar 6) v))
                        (a2b_loop r 0 0 0)
            end
        end
  end.

Definition a2b_base64 (s : string) : option string :=
  option_map string_of_list_ascii (a2b_loop (list_ascii_of_string s) 0 0 0).

End Base64.

(** ** make_email *)

(** A message object: a text part ([MIMEText], whose payload is the body in
    base64), a binary part ([MIMEBase] after [encode_base64]) with the
    headers added to it, or a multipart container with the headers set on it
    and the parts attached to it, in order. *)
Inductive message : Type :=
| Text (subtype charset payload : string)
| Base (maintype subtype : string) (headers : list (string * string)) (payload : string)
| Multipart (subtype : string) (headers : list (string * cell)) (parts : list message).

(** [MIMEText(body, subtype, "utf-8")] *)
Definition MIMEText (body subtype : string) : message :=
  Text subtype "utf-8" (Base64.encodebytes body).

Definition dquote : string := String (ascii_of_nat 34) EmptyString.

(** The body of the loop over [attachments]. *)
Definition attachment_part (a : string * string) : message :=
  let (filename, content) := a in
  Base "application" "octet-stream"
       [("Content-Transfer-Encoding", "base64");
        ("Content-Disposition",
         ("attachment; filename=" ++ dquote ++ filename ++ dquote)%string)]
       (Base64.encodebytes content).

Definition make_email (from_email : string) (to_email : cell)
    (subject plain_body : string) (html_body : option string)
    (attachments : option (list (string * string))) : message :=
  let alt :=
    Multipart "alternative" []
      (MIMEText plain_body "plain" ::
       match html_body with
       | Some h => if Py.truthy h then [MIMEText h "html"] else []
       | None => []
       end) in
  Multipart "mixed"
    [("From", Some from_email); ("To", to_email); ("Subject", Some subject)]
    (alt :: map attachment_part
               match attachments with
               | Some l => l
               | None => []
               end).

(** ** send_email *)

(** What the SMTP client does is left to the outside world: each operation
    moves the world on and either returns or raises an exception, of which
    the text is kept. *)
Record smtp (World : Type) : Type := {
  create_default_context : World -> World * option string;
  connect : string -> Z -> World -> World * option string;
  starttls : World -> World * option string;
  login : string -> string -> World -> World * option string;
  send_message : message -> World -> World * option string;
  quit : World -> World * option string
}.

Arguments create_default_context {World}.
Arguments connect {World}.
Arguments starttls {World}.
Arguments login {World}.
Arguments send_message {World}.
Arguments quit {World}.

Section Sending.

Context {World : Type}.
Variable api : smtp World.

(** Run [k] unless the step before it raised. *)
Definition and_then (r : World * option string)
    (k : World -> World * option string) : World * option string :=
  match r with
  | (w, None) => k w
  | (w, Some e) => (w, Some e)
  end.

(** The exception is [Some] text, and [None] when the message was sent.
    Leaving the [with] block sends QUIT, also when the block raised; an
    exception of QUIT replaces the one of the block. *)
Definition send_email (cfg : config) (m : message) (w : World)
  : World * option string :=
  and_then (create_default_context api w) (fun w =>
  and_then (connect api (cfg_str cfg "host") (cfg_port cfg) w) (fun w =>
    let (w, r) :=
      and_then (starttls api w) (fun w =>
      and_then (login api (cfg_str cfg "user") (cfg_str cfg "password") w) (fun w =>
      send_message api m w)) in
    match quit api w with
    | (w, Some e) => (w, Some e)
    | (w, None) => (w, r)
    end)).

End Sending.

(** ** main *)

(** [str(x)] of a cell inside an f-string. *)
Definition fmt (c : cell) : string :=
  match c with
  | Some s => s
  | None => "<NA>"
  end.

(** [(row.get("name") or "").strip()] up to the call of [strip].  A missing
    name raises: the truth value of [pd.NA] is a [TypeError], and a NaN has
    no [strip]; which of the two depends on the version of the library. *)
Definition name_or_empty (name : cell) : exn + string :=
  match name with
  | None => inl (MissingCell "name")
  | Some s => inr (if Py.truthy s then s else "")
  end.

Definition greeting_of (name : string) : string :=
  let name := Py.strip name in
  if Py.truthy name then name else "pozdrav".

(** The two bodies are f-strings; their fixed pieces are named. *)
Definition plain_rest : string :=
  "

Bok kak si Deane? Ovo je test.

U privitku je kratki report koji je generiran pomoću pandas-a.
Lp!".

Definition plain_text (greeting_name : string) : string :=
  ("Bok " ++ greeting_name ++ "," ++ plain_rest)%string.

Definition html_open : string :=
  "
        <html>
          <body>
            ".

Definition html_middle : string :=
  "
            <p><strong>Bok kak si Deane? Ovo je test.</strong></p>
            <p>U privitku je kratki report (CSV) generiran pomoću <code>pandas</code>.</p>
            <h4>Pregled (prvih 10 redaka)</h4>
            ".

Definition html_close : string :=
  "
            <p>LP!</p>
          </body>
        </html>
        ".

Definition html_text (greeting_name preview_html : string) : string :=
  (html_open ++ ("<p>Bok " ++ greeting_name ++ ",</p>")
   ++ html_middle ++ preview_html ++ html_close)%string.

(** The loop body up to and including [make_email]. *)
Definition build_message (cfg : config) (report_bytes preview_html : string)
    (row : cell * cell) : exn + message :=
  let email := fst row in
  match name_or_empty (snd row) with
  | inl e => inl e
  | inr name =>
      let greeting_name := greeting_of name in
      inr (make_email (cfg_str cfg "from_email") email
             "Test s pandas izvještajem"
             (plain_text greeting_name)
             (Some (html_text greeting_name preview_html))
             (Some [("report.csv", report_bytes)]))
  end.

(** What a run does that can be seen from outside: the calls of
    [send_email], and the lines printed. *)
Inductive event : Type :=
| Send (m : message)
| Print (line : string).

Definition sent_line (email : cell) : string := ("✅ Sent to " ++ fmt email)%string.

Definition failed_line (email : cell) (e : string) : string :=
  ("❌ Failed to send to " ++ fmt email ++ ": " ++ e)%string.

Section Driver.

(** [int] on text that is not short ASCII text, and [str.lower]. *)
Variable int_beyond : string -> option Z.
Variable str_lower : string -> string.

(** [df.to_csv(index=False)] and [df.to_html(index=False, justify="left")],
    the serialisers of the data frame library. *)
Variable to_csv : frame -> string.
Variable to_html : frame -> string.

Context {World : Type}.
Variable api : smtp World.

Definition dataframe_to_csv_bytes (df : frame) : string := to_csv df.

(** The loop over the recipients.  The result is the world after the run,
    the events in order, and the exception that ended the run, if any. *)
Fixpoint send_all (cfg : config) (report_bytes preview_html : string)
    (rows : list (cell * cell)) (w : World) : World * list event * option exn :=
  match rows with
  | [] => (w, [], None)
  | row :: rest =>
      match build_message cfg report_bytes preview_html row with
      | inl e => (w, [], Some e)
      | inr msg =>
          let (w1, r) := send_email api cfg msg w in
          let line :=
            match r with
            | None => sent_line (fst row)
            | Some e => failed_line (fst row) e
            end in
          let '(w2, events, result) :=
            send_all cfg report_bytes preview_html rest w1 in
          (w2, Send msg :: Print line :: events, result)
      end
  end.

(** The recipients of the run: those loaded, or the fallback recipient when
    the loaded frame is empty. *)
Definition recipients_of (cfg : config) (loaded : list (cell * cell))
  : list (cell * cell) :=
  match loaded with
  | [] => [(Some (cfg_str cfg "fallback_to"), Some "Primatelj")]
  | _ :: _ => loaded
  end.

(** [file] is the content of [recipients.csv], [None] when there is no such
    file.  The content is a table with an "email" column, as for
    [load_recipients]: a file that the reader cannot parse, or that has no
    such column, makes [load_recipients] raise and is not described here. *)
Definition main (env : environ) (file : option source) (w : World)
  : World * list event * option exn :=
  match load_env int_beyond env with
  | inl e => (w, [], Some e)
  | inr cfg =>
      let recipients_df := recipients_of cfg (load_recipients str_lower file) in
      match build_report with
      | inl e => (w, [], Some e)
      | inr report_df =>
          let report_bytes := dataframe_to_csv_bytes report_df in
          let preview_html := to_html (head 10 report_df) in
          send_all cfg report_bytes preview_html recipients_df w
      end
  end.

End Driver.

(** ** Sample inputs *)

Definition source_inactive_first : source :=
  {| has_name := true; has_active := true;
     src_rows :=
       [ {| src_email := Some "a@x.com"; src_name := Some "A"; src_active := VBool false |};
         {| src_email := Some "a@x.com"; src_name := Some "B"; src_active := VBool true |} ] |}.

(** The types the reader infers for a column: booleans; integers; floats,
    where a missing cell is NaN; or objects, which are text, or booleans when
    no cell is text, next to missing cells. *)
Definition inferred (cells : list value) : bool :=
  forallb (fun v => match v with VBool _ => true | _ => false end) cells
  || forallb (fun v => match v with VInt _ => true | _ => false end) cells
  || forallb (fun v => match v with VFloat _ | VNA => true | _ => false end) cells
  || forallb (fun v => match v with VBool _ | VNA => true | _ => false end) cells
  || forallb (fun v => match v with VStr _ | VNA => true | _ => false end) cells.

(** A file whose "active" column holds 1 and 0. *)
Definition source_active_one : source :=
  {| has_name := true; has_active := true;
     src_rows :=
       [ {| src_email := Some "a@x.com"; src_name := Some "A"; src_active := VInt 1 |};
         {| src_email := Some "b@x.com"; src_name := Some "B"; src_active := VInt 0 |} ] |}.

(** The claim C5 as the specification words it: with an "active" column, a
    row of the result comes from a source row whose active value is the
    boolean true. *)
Definition survivors_literally_true (lower : string -> string) (df : source) : Prop :=
  forall e n, In (e, n) (load_recipients lower (Some df)) ->
  exists r, In r (src_rows df) /\ view lower df r = (e, n) /\ src_active r = VBool true.

(** The cells of one record in the frame of the records. *)
Definition record_row (r : item) : list value :=
  [VStr (sku r); VStr (status r); VInt (qty r)].

(** ** Vocabulary for the report *)

Definition report_columns : list string :=
  ["section"; "status"; "total_skus"; "total_qty"; "sku"; "qty"].

Definition with_status (k : string) (rs : list item) : list item :=
  filter (fun r => (status r =? k)%string) rs.

Definition total_qty (rs : list item) : Z :=
  fold_right (fun r acc => (qty r + acc)%Z) 0%Z rs.

(** The row of the report for the group of status [k]. *)
Definition summary_row (rs : list item) (k : string) : list value :=
  [ VStr "summary"; VStr k;
    num (Z.of_nat (length (with_status k rs)));
    num (wrap64 (total_qty (with_status k rs)));
    VNA; VNA ].

(** The row of the report for one record. *)
Definition detail_row (r : item) : list value :=
  [ VStr "detail"; VStr (status r); VNA; VNA; VStr (sku r); num (qty r) ].

Definition is_text (s : string) (v : value) : bool :=
  match v with
  | VStr x => (x =? s)%string
  | _ => false
  end.

(** The detail rows of a report that have status [k]. *)
Definition details_of (t : frame) (k : string) : list (list value) :=
  filter (fun row => is_text "detail" (at_col 0 row) && is_text k (at_col 1 row)) (data t).

(** The integer a numeric cell holds, whatever the type of its column, and
    the sum of the integers of a column. *)
Definition whole (v : value) : option Z :=
  match v with
  | VInt z => Some z
  | VFloat q => if Qeq_bool q (inject_Z (Qfloor q)) then Some (Qfloor q) else None
  | _ => None
  end.

Definition whole_sum (cells : list value) : Z :=
  fold_right (fun v acc => match whole v with Some z => (z + acc)%Z | None => acc end)
             0%Z cells.

(** The claim C1 as the specification words it: each summary row counts the
    detail rows of its status and holds the sum of their quantities. *)
Definition summary_agrees (t : frame) : Prop :=
  forall row,
    In row (data t) -> at_col 0 row = VStr "summary" ->
    exists k,
      at_col 1 row = VStr k
      /\ whole (at_col 2 row) = Some (Z.of_nat (length (details_of t k)))
      /\ whole (at_col 3 row) = Some (whole_sum (map (at_col 5) (details_of t k))).

(** The integers that float64 holds exactly, in the range where all are. *)
Definition exact (z : Z) : Prop := (Z.abs z < 2 ^ 53)%Z.

(** Two records of one status whose quantities are 64-bit integers and whose
    sum is not. *)
Definition overflowing_data : list item :=
  [ {| sku := "A"; status := "in_stock"; qty := 2 ^ 63 - 1 |};
    {| sku := "B"; status := "in_stock"; qty := 1 |} ].

(** The numbers below [n], to check a property of bytes case by case. *)
Fixpoint below (n : nat) : list N :=
  match n with
  | 0 => []
  | S m => N.of_nat m :: below m
  end.

(** What the decoder needs of two neighbouring bytes [x], [y] of the input:
    the six-bit values of the encoder are in range, and the decoder's shifts
    give the bytes back. *)
Definition regroup_ok (x y : N) : bool :=
  let s0 := N.shiftr x 2 in
  let s1 := N.lor (N.shiftl (N.land x 3) 4) (N.shiftr y 4) in
  let s1' := N.shiftl (N.land x 3) 4 in
  let s2 := N.lor (N.shiftl (N.land x 15) 2) (N.shiftr y 6) in
  let s2' := N.shiftl (N.land x 15) 2 in
  let s3 := N.land x 63 in
  (s0 <? 64)%N && (s1 <? 64)%N && (s1' <? 64)%N && (s2 <? 64)%N && (s2' <? 64)%N
  && (s3 <? 64)%N
  && (N.lor (N.shiftl s0 2) (N.shiftr s1 4) =? x)%N
  && (N.lor (N.shiftl s0 2) (N.shiftr s1' 4) =? x)%N
  && (N.land s1 15 =? N.shiftr y 4)%N
  && (N.lor (N.shiftl (N.shiftr x 4) 4) (N.shiftr s2 2) =? x)%N
  && (N.lor (N.shiftl (N.shiftr x 4) 4) (N.shiftr s2' 2) =? x)%N
  && (N.land s2 3 =? N.shiftr y 6)%N
  && (N.lor (N.shiftl (N.shiftr x 6) 6) s3 =? x)%N.

Definition sextet_ok (n : N) : bool :=
  match Base64.a2b (Base64.b2a n) with
  | Some m => (m =? n)%N
  | None => false
  end && negb (Ascii.eqb (Base64.b2a n) Base64.pad).

(** ** Vocabulary for messages and runs *)

(** [x] occurs in [s]. *)
Definition Substring (x s : string) : Prop :=
  exists pre post, s = (pre ++ x ++ post)%string.

(** The attachment parts of a message: its binary parts. *)
Definition attachments_of (m : message) : list message :=
  match m with
  | Multipart _ _ parts =>
      filter (fun p => match p with Base _ _ _ _ => true | _ => false end) parts
  | _ => []
  end.

(** The greeting the claim C9 words: the name itself unless it is empty. *)
Definition greeting_is_name_unless_empty : Prop :=
  forall name, name <> "" -> greeting_of name = name.

Fixpoint sends (events : list event) : list message :=
  match events with
  | [] => []
  | Send m :: rest => m :: sends rest
  | Print _ :: rest => sends rest
  end.

Fixpoint prints (events : list event) : list string :=
  match events with
  | [] => []
  | Send _ :: rest => prints rest
  | Print line :: rest => line :: prints rest
  end.

(** The row has a name, which may be empty. *)
Definition named (row : cell * cell) : Prop := exists n, snd row = Some n.

(** An SMTP world in which nothing happens and every step succeeds, and a
    serialiser that writes nothing, for running examples. *)
Definition quiet_api : smtp unit :=
  {| create_default_context := fun w => (w, None);
     connect := fun _ _ w => (w, None);
     starttls := fun w => (w, None);
     login := fun _ _ w => (w, None);
     send_message := fun _ w => (w, None);
     quit := fun w => (w, None) |}.

Definition no_text (df : frame) : string := EmptyString.

Definition env_bad_port : environ :=
  env_of [("SMTP_PORT", "25a"); ("SMTP_USER", "robot"); ("SMTP_PASS", "secret");
          ("FROM_EMAIL", "robot@example.org"); ("FALLBACK_TO", "ops@example.org")].



Definition source_sample : source :=
  {| has_name := true; has_active := true;
     src_rows :=
       [ {| src_email := Some " A@x.com"; src_name := Some "A"; src_active := VBool false |};
         {| src_email := Some "a@X.com "; src_name := None; src_active := VBool true |};
         {| src_email := Some "nobody"; src_name := Some "N"; src_active := VBool true |};
         {| src_email := None; src_name := Some "M"; src_active := VBool true |};
         {| src_email := Some "a@x.com"; src_name := Some "C"; src_active := VBool true |} ] |}.

(** ** Vocabulary for the further properties *)

(** The summary rows of a report. *)
Definition summaries (t : frame) : list (list value) :=
  filter (fun row => is_text "summary" (at_col 0 row)) (data t).

(** The sum of [w] over records, and of [f] over keys. *)
Definition sum_by (w : item -> Z) (rs : list item) : Z :=
  fold_right (fun r acc => (w r + acc)%Z) 0%Z rs.

Definition sum_keys (f : string -> Z) (keys : list string) : Z :=
  fold_right (fun k acc => (f k + acc)%Z) 0%Z keys.

Definition source_clean : source :=
  {| has_name := false; has_active := false;
     src_rows :=
       [ {| src_email := Some "Ana@Example.org"; src_name := None; src_active := VNA |};
         {| src_email := Some "ivo@example.org "; src_name := None; src_active := VNA |} ] |}.

(** The parts of the alternative container of a message, and what a part
    holds once its payload is decoded. *)
Definition alternatives (m : message) : list message :=
  match m with
  | Multipart _ _ (Multipart _ _ parts :: _) => parts
  | _ => []
  end.

Definition decoded (m : message) : option string :=
  match m with
  | Text _ _ payload => Base64.a2b_base64 payload
  | Base _ _ _ payload => Base64.a2b_base64 payload
  | Multipart _ _ _ => None
  end.

(** The file name announced by an attachment part. *)
Definition disposition (m : message) : option string :=
  match m with
  | Base _ _ headers _ =>
      option_map snd (find (fun h => (fst h =? "Content-Disposition")%string) headers)
  | _ => None
  end.

(** The calls of the SMTP client. *)
Inductive call : Type :=
| CallContext
| CallConnect (host : string) (port : Z)
| CallStarttls
| CallLogin (user password : string)
| CallSend (m : message)
| CallQuit.

(** A call in the list of the calls made: the call and its outcome, [None]
    when it returned and the exception when it raised. *)
Definition logline : Type := call * option string.

Definition returned (l : logline) : Prop := snd l = None.

(** Run a step and write down the call and its outcome. *)
Definition logged {World : Type} (c : call) (step : World -> World * option string)
    (s : World * list logline) : (World * list logline) * option string :=
  let (w, r) := step (fst s) in
  ((w, snd s ++ [(c, r)]), r).

(** An SMTP world that behaves as [api] and keeps the list of the calls
    made. *)
Definition traced {World : Type} (api : smtp World) : smtp (World * list logline) :=
  {| create_default_context := logged CallContext (create_default_context api);
     connect := fun host port => logged (CallConnect host port) (connect api host port);
     starttls := logged CallStarttls (starttls api);
     login := fun user password => logged (CallLogin user password) (login api user password);
     send_message := fun m => logged (CallSend m) (send_message api m);
     quit := logged CallQuit (quit api) |}.


(** A character that may occur in a base64 payload. *)
Definition payload_char (c : ascii) : bool :=
  match Base64.a2b c with
  | Some _ => true
  | None => Ascii.eqb c Base64.pad || Ascii.eqb c Base64.newline
  end.

(** The payloads of the parts of a message built by [make_email]. *)
Definition payloads (m : message) : list string :=
  map (fun p => match p with
                | Text _ _ payload => payload
                | Base _ _ _ payload => payload
                | Multipart _ _ _ => EmptyString
                end)
      (alternatives m ++ attachments_of m).

(** A file in which no row has an address. *)
Definition source_no_address : source :=
  {| has_name := true; has_active := false;
     src_rows :=
       [ {| src_email := Some "ana"; src_name := Some "Ana"; src_active := VNA |};
         {| src_email := None; src_name := Some "Ivo"; src_active := VNA |} ] |}.

Definition env_run : environ :=
  env_of [("SMTP_HOST", "mail.example.org"); ("SMTP_PORT", "2525");
          ("SMTP_USER", "robot"); ("SMTP_PASS", "secret");
          ("FROM_EMAIL", "robot@example.org"); ("FALLBACK_TO", "ops@example.org")].

(** * Properties *)

Example strip_spaces : Py.strip "  Ana	 " = "Ana".
Proof. reflexivity. Qed.

Example strip_wide_spaces :
  Py.strip (string_of_list_ascii (Py.bytes [194; 160; 97; 32; 98; 226; 128; 137; 10])) = "a b".
Proof. reflexivity. Qed.

Example int_default : forall beyond, Py.int beyond "587" = Some 587%Z.
Proof. reflexivity. Qed.

Example int_underscore :
  forall beyond,
    Py.int beyond " +5_87 " = Some 587%Z /\ Py.int beyond "5__87" = None
    /\ Py.int beyond "" = None /\ Py.int beyond "-0012" = Some (-12)%Z.
Proof. repeat split. Qed.

(** The separators U+001C..U+001F are white space for [str.strip] and not
    for [int] on ASCII text. *)
Example int_separator :
  let s := String (ascii_of_nat 28) "587" in
  Py.strip s = "587" /\ forall beyond, Py.int beyond s = None.
Proof. split; reflexivity. Qed.

(** Text with characters outside ASCII is left to the parameter: here the
    fullwidth digits of 587. *)
Example int_fullwidth :
  let s := string_of_list_ascii
             (Py.bytes [239; 188; 149; 239; 188; 152; 239; 188; 151]) in
  forall beyond, Py.int beyond s = beyond s.
Proof. reflexivity. Qed.

Example load_env_host_only_missing :
  forall int_beyond,
    load_env int_beyond
             (env_of [("SMTP_HOST", ""); ("SMTP_USER", "u"); ("SMTP_PASS", "p");
                      ("FROM_EMAIL", "f@x"); ("FALLBACK_TO", "g@x")])
    = inl (RuntimeError "Missing required environment variables: host").
Proof. reflexivity. Qed.

Example build_report_sample :
  build_report =
  inr {| columns := ["section"; "status"; "total_skus"; "total_qty"; "sku"; "qty"];
         data :=
           [ [VStr "summary"; VStr "in_stock"; num 1; num 12; VNA; VNA];
             [VStr "summary"; VStr "low_stock"; num 1; num 2; VNA; VNA];
             [VStr "summary"; VStr "out_of_stock"; num 1; num 0; VNA; VNA];
             [VStr "detail"; VStr "in_stock"; VNA; VNA; VStr "D-235700"; num 12];
             [VStr "detail"; VStr "low_stock"; VNA; VNA; VStr "D-226994"; num 2];
             [VStr "detail"; VStr "out_of_stock"; VNA; VNA; VStr "D-211744"; num 0] ] |}.
Proof. reflexivity. Qed.

Example num_sample : num 12 = VFloat (inject_Z 12) /\ whole (num 12) = Some 12%Z.
Proof. split; reflexivity. Qed.

(** Beyond 53 bits the conversion rounds, and the sum of an int64 column
    wraps around. *)
Example float_of_int_rounds :
  float_of_int (2 ^ 53 + 1) = (2 ^ 53)%Z /\ float_of_int (2 ^ 53 + 3) = (2 ^ 53 + 4)%Z
  /\ float_of_int (2 ^ 63 - 1) = (2 ^ 63)%Z /\ float_of_int (- 2 ^ 63) = (- 2 ^ 63)%Z
  /\ agg_sum [VInt (2 ^ 63 - 1); VInt 1] = (- 2 ^ 63)%Z.
Proof. repeat split. Qed.

Example load_recipients_sample :
  load_recipients ascii_lower (Some source_sample) = [(Some "a@x.com", Some "")].
Proof. reflexivity. Qed.

(** ** Properties of load_env *)

Lemma cfg_literal_keys (env : environ) (port : Z) :
  map fst (cfg_literal env port) = ["host"; "port"; "user"; "password"; "from_email"; "fallback_to"]
  /\ filter not_port (map fst (cfg_literal env port)) = required_keys.
Proof. split; reflexivity. Qed.

Lemma missing_items (vh vu vp vf vt : cfgval) (port : Z) :
  let cfg := [("host", vh); ("port", CInt port); ("user", vu); ("password", vp);
              ("from_email", vf); ("fallback_to", vt)] in
  missing cfg = filter (fun k => none_or_empty (cfg_get cfg k)) required_keys.
Proof.
  unfold missing, required_keys; cbn.
  destruct (none_or_empty vh), (none_or_empty vu), (none_or_empty vp),
           (none_or_empty vf), (none_or_empty vt); reflexivity.
Qed.

Lemma missing_cfg_literal (env : environ) (port : Z) :
  missing (cfg_literal env port)
  = filter (fun k => none_or_empty (cfg_get (cfg_literal env port) k)) required_keys.
Proof. apply missing_items. Qed.

Lemma load_env_parsed (int_beyond : string -> option Z) (env : environ) (port : Z) :
  Py.int int_beyond (getenv_default env "SMTP_PORT" "587") = Some port ->
  load_env int_beyond env =
  match missing (cfg_literal env port) with
  | [] => inr (cfg_literal env port)
  | m => inl (RuntimeError (missing_message m))
  end.
Proof. intros H; unfold load_env; rewrite H; reflexivity. Qed.

Lemma none_or_empty_getenv (env : environ) (k : string) :
  none_or_empty (getenv env k) = absent_or_empty (env k).
Proof. unfold getenv; destruct (env k); reflexivity. Qed.

(** The comprehension of [load_env] finds the fields that the environment
    leaves absent or empty. *)
Lemma missing_absent_fields (env : environ) (port : Z) :
  missing (cfg_literal env port) = absent_fields env.
Proof.
  rewrite missing_cfg_literal.
  unfold absent_fields, required_fields, required_keys.
  cbn [filter cfg_get cfg_literal String.eqb Ascii.eqb Bool.eqb map fst snd].
  rewrite !none_or_empty_getenv.
  change (none_or_empty (CStr (getenv_default env "SMTP_HOST" "smtp.gmail.com")))
    with (absent_or_empty (Some (getenv_default env "SMTP_HOST" "smtp.gmail.com"))).
  destruct (absent_or_empty (Some (getenv_default env "SMTP_HOST" "smtp.gmail.com"))),
           (absent_or_empty (env "SMTP_USER")), (absent_or_empty (env "SMTP_PASS")),
           (absent_or_empty (env "FROM_EMAIL")), (absent_or_empty (env "FALLBACK_TO"));
    reflexivity.
Qed.

Lemma absent_or_empty_spec (v : option string) :
  absent_or_empty v = true <-> v = None \/ v = Some "".
Proof.
  destruct v as [s|]; simpl.
  - rewrite String.eqb_eq; split.
    + intros ->; right; reflexivity.
    + intros [H|H]; [discriminate H | injection H as ->; reflexivity].
  - split; [left; reflexivity | reflexivity].
Qed.

Lemma absent_fields_In (env : environ) (k : string) :
  In k (absent_fields env)
  <-> exists v, In (k, v) (required_fields env) /\ (v = None \/ v = Some "").
Proof.
  unfold absent_fields; rewrite in_map_iff; split.
  - intros [[k' v] [Hk Hin]]; simpl in Hk; subst k'.
    apply filter_In in Hin; destruct Hin as [Hin Hv].
    exists v; split; [exact Hin | apply absent_or_empty_spec; exact Hv].
  - intros [v [Hin Hv]]; exists (k, v); split; [reflexivity|].
    apply filter_In; split; [exact Hin | apply absent_or_empty_spec; exact Hv].
Qed.

Ltac field_cases H :=
  unfold required_fields in H; cbn [In] in H;
  repeat (destruct H as [H|H]; [try discriminate H|]); try contradiction.

(** Which environment variable stands behind each reported key. *)
Lemma absent_fields_spec (env : environ) :
  (In "host" (absent_fields env) <-> env "SMTP_HOST" = Some "")
  /\ (In "user" (absent_fields env)
      <-> env "SMTP_USER" = None \/ env "SMTP_USER" = Some "")
  /\ (In "password" (absent_fields env)
      <-> env "SMTP_PASS" = None \/ env "SMTP_PASS" = Some "")
  /\ (In "from_email" (absent_fields env)
      <-> env "FROM_EMAIL" = None \/ env "FROM_EMAIL" = Some "")
  /\ (In "fallback_to" (absent_fields env)
      <-> env "FALLBACK_TO" = None \/ env "FALLBACK_TO" = Some "")
  /\ (forall k, In k (absent_fields env) -> In k required_keys).
Proof.
  repeat split; try (intros H; apply absent_fields_In in H; destruct H as [v [Hin Hv]]).
  - field_cases Hin. injection Hin as <-.
    unfold getenv_default in Hv; destruct (env "SMTP_HOST") as [h|];
      destruct Hv as [Hv|Hv]; try discriminate Hv; congruence.
  - intros H; apply absent_fields_In; eexists; split; [left; reflexivity|].
    unfold getenv_default; rewrite H; right; reflexivity.
  - field_cases Hin. injection Hin as <-; exact Hv.
  - intros H; apply absent_fields_In; eexists; split;
      [right; left; reflexivity | exact H].
  - field_cases Hin. injection Hin as <-; exact Hv.
  - intros H; apply absent_fields_In; eexists; split;
      [right; right; left; reflexivity | exact H].
  - field_cases Hin. injection Hin as <-; exact Hv.
  - intros H; apply absent_fields_In; eexists; split;
      [right; right; right; left; reflexivity | exact H].
  - field_cases Hin. injection Hin as <-; exact Hv.
  - intros H; apply absent_fields_In; eexists; split;
      [right; right; right; right; left; reflexivity | exact H].
  - intros k H; apply absent_fields_In in H; destruct H as [v [Hin _]].
    unfold required_fields in Hin; cbn [In] in Hin; unfold required_keys; cbn [In].
    repeat (destruct Hin as [Hin|Hin]; [injection Hin as <- _; tauto|]).
    contradiction.
Qed.

(** C3, as stated, fails: with SMTP_PORT set to "abc" and three of the
    variables unset, [load_env] raises the [ValueError] of the port text,
    which names no variable, and not the error that lists them. *)
Lemma load_env_required_counterexample :
  absent_fields env_port_abc = ["password"; "from_email"; "fallback_to"]
  /\ (forall int_beyond,
         load_env int_beyond env_port_abc = inl (ValueError "abc")
         /\ ~ reports_absent_fields int_beyond env_port_abc)
  /\ ~ (forall int_beyond env, reports_absent_fields int_beyond env).
Proof.
  assert (H : forall int_beyond,
             load_env int_beyond env_port_abc = inl (ValueError "abc")
             /\ ~ reports_absent_fields int_beyond env_port_abc).
  { intros int_beyond; split; [reflexivity|].
    intros Hr.
    assert (He : load_env int_beyond env_port_abc = inl (ValueError "abc"))
      by reflexivity.
    rewrite Hr in He; [discriminate He | discriminate]. }
  split; [reflexivity|].
  split; [exact H|].
  intros Hall; apply (proj2 (H int_ascii_only)); apply Hall.
Qed.

(** C3, amended.  When the port text is one that [int] accepts, the keys
    that the comprehension of [load_env] collects are exactly the fields
    among host, user, password, from_email and fallback_to whose value is
    absent or empty, in this order, and never "port": user, password,
    from_email and fallback_to when their variable is unset or empty, host
    when SMTP_HOST is set to the empty string.  When there is none the
    configuration is returned; otherwise [load_env] raises a [RuntimeError]
    whose message lists all of them, joined by a comma and a space, and the
    run ends with it before anything is sent or printed. *)
Theorem load_env_required (int_beyond : string -> option Z) (env : environ) (port : Z) :
  Py.int int_beyond (getenv_default env "SMTP_PORT" "587") = Some port ->
  let cfg := cfg_literal env port in
  let absent := absent_fields env in
  missing cfg = absent
  /\ ~ In "port" absent
  /\ (In "host" absent <-> env "SMTP_HOST" = Some "")
  /\ (In "user" absent <-> env "SMTP_USER" = None \/ env "SMTP_USER" = Some "")
  /\ (In "password" absent <-> env "SMTP_PASS" = None \/ env "SMTP_PASS" = Some "")
  /\ (In "from_email" absent <-> env "FROM_EMAIL" = None \/ env "FROM_EMAIL" = Some "")
  /\ (In "fallback_to" absent
      <-> env "FALLBACK_TO" = None \/ env "FALLBACK_TO" = Some "")
  /\ (absent = [] -> load_env int_beyond env = inr cfg)
  /\ (absent <> [] ->
      let e := RuntimeError
                 ("Missing required environment variables: " ++ Py.join ", " absent)%string in
      load_env int_beyond env = inl e
      /\ forall lower to_csv to_html (World : Type) (api : smtp World) file (w : World),
          main int_beyond lower to_csv to_html api env file w = (w, [], Some e)).
Proof.
  intros Hport cfg absent.
  assert (Hm : missing cfg = absent) by apply missing_absent_fields.
  destruct (absent_fields_spec env) as (Hh & Hu & Hp & Hf & Ht & Hkeys).
  split; [exact Hm|].
  split.
  { intros Hin; apply Hkeys in Hin; unfold required_keys in Hin; cbn [In] in Hin.
    repeat (destruct Hin as [Hin|Hin]; [discriminate Hin|]); exact Hin. }
  do 5 (split; [assumption|]).
  assert (Hload : load_env int_beyond env =
                  match absent with
                  | [] => inr cfg
                  | _ :: _ => inl (RuntimeError (missing_message absent))
                  end).
  { rewrite (load_env_parsed int_beyond env port Hport); fold cfg; rewrite Hm.
    destruct absent; reflexivity. }
  split.
  - intros Ha; rewrite Hload, Ha; reflexivity.
  - intros Hne e.
    assert (He : load_env int_beyond env = inl e).
    { rewrite Hload; destruct absent; [contradiction Hne; reflexivity | reflexivity]. }
    split; [exact He|].
    intros lower to_csv to_html World api file w.
    unfold main; rewrite He; reflexivity.
Qed.

Lemma load_env_required_witness :
  Py.int int_ascii_only (getenv_default env_two_missing "SMTP_PORT" "587") = Some 2525%Z
  /\ absent_fields env_two_missing = ["password"; "from_email"; "fallback_to"]
  /\ load_env int_ascii_only env_two_missing
     = inl (RuntimeError
              "Missing required environment variables: password, from_email, fallback_to")
  /\ main int_ascii_only ascii_lower no_text no_text quiet_api env_two_missing None tt
     = (tt, [],
        Some (RuntimeError
                "Missing required environment variables: password, from_email, fallback_to")).
Proof.
  split; [reflexivity|].
  split; [reflexivity|].
  destruct (load_env_required int_ascii_only env_two_missing 2525 eq_refl)
    as (_ & _ & _ & _ & _ & _ & _ & _ & H).
  destruct H as [H1 H2]; [discriminate|].
  split; [exact H1 | apply H2].
Defined.

(** C8, as stated, fails: with SMTP_HOST set to the empty string the four
    variables are set, the port is unset, and loading fails on "host". *)
Lemma load_env_default_port_counterexample :
  four_set_port_unset env_empty_host
  /\ (forall int_beyond,
         load_env int_beyond env_empty_host
         = inl (RuntimeError "Missing required environment variables: host"))
  /\ ~ (forall int_beyond env, four_set_port_unset env ->
         exists cfg, load_env int_beyond env = inr cfg /\ cfg_port cfg = 587%Z).
Proof.
  assert (Hpre : four_set_port_unset env_empty_host).
  { unfold four_set_port_unset.
    repeat split; try reflexivity;
      eexists; (split; [reflexivity | discriminate]). }
  split; [exact Hpre|].
  split; [reflexivity|].
  intros H; destruct (H int_ascii_only _ Hpre) as [cfg [Hcfg _]]; discriminate Hcfg.
Qed.

Lemma none_or_empty_CStr (s : string) : s <> "" -> none_or_empty (CStr s) = false.
Proof. intros H; unfold none_or_empty; apply String.eqb_neq; exact H. Qed.

(** C8, amended.  When moreover SMTP_HOST is unset or not empty, loading
    succeeds and the port of the configuration is 587. *)
Theorem load_env_default_port (int_beyond : string -> option Z) (env : environ) :
  four_set_port_unset env ->
  env "SMTP_HOST" <> Some "" ->
  exists cfg, load_env int_beyond env = inr cfg /\ cfg_port cfg = 587%Z
              /\ cfg_get cfg "port" = CInt 587.
Proof.
  intros (Hu & Hp & Hf & Ht & Hport) Hhost.
  destruct Hu as [u [Hu Hu']], Hp as [p [Hp Hp']],
           Hf as [f [Hf Hf']], Ht as [t [Ht Ht']].
  exists (cfg_literal env 587).
  split; [|split; reflexivity].
  assert (Hint : Py.int int_beyond (getenv_default env "SMTP_PORT" "587") = Some 587%Z).
  { unfold getenv_default; rewrite Hport; reflexivity. }
  rewrite (load_env_parsed int_beyond env 587 Hint).
  unfold missing, cfg_literal, getenv, getenv_default.
  rewrite Hu, Hp, Hf, Ht; cbn.
  rewrite (none_or_empty_CStr u Hu'), (none_or_empty_CStr p Hp'),
          (none_or_empty_CStr f Hf'), (none_or_empty_CStr t Ht'); cbn.
  destruct (env "SMTP_HOST") as [h|] eqn:Hh; cbn.
  - rewrite none_or_empty_CStr; [reflexivity|].
    intros ->; apply Hhost; reflexivity.
  - reflexivity.
Qed.

Lemma load_env_default_port_witness :
  four_set_port_unset env_four_set
  /\ env_four_set "SMTP_HOST" <> Some ""
  /\ exists cfg, load_env int_ascii_only env_four_set = inr cfg /\ cfg_port cfg = 587%Z
                 /\ cfg_get cfg "port" = CInt 587.
Proof.
  assert (Hpre : four_set_port_unset env_four_set).
  { unfold four_set_port_unset.
    repeat split; try reflexivity;
      eexists; (split; [reflexivity | discriminate]). }
  assert (Hhost : env_four_set "SMTP_HOST" <> Some "") by discriminate.
  split; [exact Hpre|].
  split; [exact Hhost|].
  exact (load_env_default_port int_ascii_only env_four_set Hpre Hhost).
Defined.

(** ** Properties of load_recipients *)

Lemma subseq_map {A B : Type} (f : A -> B) (l1 l2 : list A) :
  subseq l1 l2 -> subseq (map f l1) (map f l2).
Proof. induction 1; simpl; constructor; assumption. Qed.

Lemma cell_eqb_eq (a b : cell) : cell_eqb a b = true <-> a = b.
Proof.
  destruct a as [x|], b as [y|]; simpl; split; intros H;
    try discriminate; try reflexivity.
  - apply String.eqb_eq in H; congruence.
  - injection H as ->; apply String.eqb_refl.
Qed.

Lemma seen_In (e : cell) (seen : list cell) :
  existsb (cell_eqb e) seen = true <-> In e seen.
Proof.
  rewrite existsb_exists; split.
  - intros [x [Hx He]]; apply cell_eqb_eq in He; subst; exact Hx.
  - intros H; exists e; split; [exact H | apply cell_eqb_eq; reflexivity].
Qed.

Lemma filter_split {A : Type} (f : A -> bool) (l a b : list A) (x : A) :
  filter f l = a ++ x :: b ->
  exists a' b', l = a' ++ x :: b' /\ filter f a' = a /\ filter f b' = b /\ f x = true.
Proof.
  revert a; induction l as [|y l IH]; intros a H; simpl in H.
  - destruct a; discriminate H.
  - destruct (f y) eqn:Hy.
    + destruct a as [|z a]; simpl in H; injection H as -> H.
      * exists [], l; simpl; auto.
      * destruct (IH a H) as (a' & b' & -> & Ha & Hb & Hx).
        exists (z :: a'), b'; simpl; rewrite Hy, Ha; auto.
    + destruct (IH a H) as (a' & b' & -> & Ha & Hb & Hx).
      exists (y :: a'), b'; simpl; rewrite Hy; auto.
Qed.

Section RecipientsFacts.

Variable lower : string -> string.

Lemma drop_duplicates_normalize (seen : list cell) (rows : list source_row) :
  drop_duplicates seen (map (normalize lower) rows)
  = map (normalize lower) (keep_first lower seen rows).
Proof.
  revert seen; induction rows as [|r rows IH]; intros seen; simpl; [reflexivity|].
  fold (key lower r); destruct (existsb (cell_eqb (key lower r)) seen); simpl; rewrite IH; reflexivity.
Qed.

Lemma filter_normalize (f : source_row -> bool) (rows : list source_row) :
  filter f (map (normalize lower) rows)
  = map (normalize lower) (filter (fun r => f (normalize lower r)) rows).
Proof.
  induction rows as [|r rows IH]; simpl; [reflexivity|].
  destruct (f (normalize lower r)); simpl; rewrite IH; reflexivity.
Qed.

Lemma filter_filter {A : Type} (f g : A -> bool) (l : list A) :
  filter g (filter f l) = filter (fun x => f x && g x) l.
Proof.
  induction l as [|x l IH]; simpl; [reflexivity|].
  destruct (f x); simpl; [destruct (g x)|]; rewrite IH; reflexivity.
Qed.

(** The pipeline of [load_recipients] on the source rows. *)
Lemma load_recipients_rows (df : source) :
  load_recipients lower (Some df)
  = map (view lower df) (keep_first lower [] (filter (eligible lower df) (src_rows df))).
Proof.
  unfold load_recipients.
  assert (H : filter (fun r => contains_at (src_email r))
                (if has_active df
                 then filter (fun r => eq_True (src_active r)) (map (normalize lower) (src_rows df))
                 else map (normalize lower) (src_rows df))
              = map (normalize lower) (filter (eligible lower df) (src_rows df))).
  { unfold eligible; destruct (has_active df).
    - rewrite filter_normalize, filter_normalize, filter_filter; reflexivity.
    - rewrite filter_normalize; reflexivity. }
  rewrite H, drop_duplicates_normalize, map_map; reflexivity.
Qed.

Lemma keep_first_subseq (f : source_row -> bool) (seen : list cell) (rows : list source_row) :
  subseq (keep_first lower seen (filter f rows)) rows.
Proof.
  revert seen; induction rows as [|r rows IH]; intros seen; simpl; [constructor|].
  destruct (f r); simpl; [|constructor; apply IH].
  destruct (existsb (cell_eqb (key lower r)) seen); constructor; apply IH.
Qed.

Lemma keep_first_fresh (seen : list cell) (rows : list source_row) (r : source_row) :
  In r (keep_first lower seen rows) -> ~ In (key lower r) seen.
Proof.
  revert seen; induction rows as [|x rows IH]; intros seen H; simpl in H; [contradiction|].
  destruct (existsb (cell_eqb (key lower x)) seen) eqn:Hx.
  - apply IH; exact H.
  - destruct H as [->|H].
    + intros Hin; apply seen_In in Hin; congruence.
    + intros Hin; apply (IH _ H); right; exact Hin.
Qed.

Lemma keep_first_NoDup (seen : list cell) (rows : list source_row) :
  NoDup (map (key lower) (keep_first lower seen rows)).
Proof.
  revert seen; induction rows as [|x rows IH]; intros seen; simpl; [constructor|].
  destruct (existsb (cell_eqb (key lower x)) seen); [apply IH|].
  simpl; constructor; [|apply IH].
  intros Hin; apply in_map_iff in Hin; destruct Hin as [r [Hk Hr]].
  apply keep_first_fresh in Hr; apply Hr; left; symmetry; exact Hk.
Qed.

Lemma keep_first_split (seen : list cell) (rows : list source_row) (r : source_row) :
  In r (keep_first lower seen rows) ->
  exists pre post, rows = pre ++ r :: post
                   /\ forall r', In r' pre -> key lower r' <> key lower r.
Proof.
  revert seen; induction rows as [|x rows IH]; intros seen H; simpl in H; [contradiction|].
  destruct (existsb (cell_eqb (key lower x)) seen) eqn:Hx.
  - pose proof (keep_first_fresh _ _ _ H) as Hfresh.
    destruct (IH _ H) as (pre & post & -> & Hpre).
    exists (x :: pre), post; split; [reflexivity|].
    intros r' [<-|Hr']; [|apply Hpre; exact Hr'].
    intros Heq; apply Hfresh; rewrite <- Heq; apply seen_In; exact Hx.
  - destruct H as [->|H].
    + exists [], rows; split; [reflexivity | intros r' []].
    + pose proof (keep_first_fresh _ _ _ H) as Hfresh.
      destruct (IH _ H) as (pre & post & -> & Hpre).
      exists (x :: pre), post; split; [reflexivity|].
      intros r' [<-|Hr']; [|apply Hpre; exact Hr'].
      intros Heq; apply Hfresh; left; exact Heq.
Qed.

Lemma keep_first_complete (seen : list cell) (pre post : list source_row) (r : source_row) :
  ~ In (key lower r) seen ->
  (forall r', In r' pre -> key lower r' <> key lower r) ->
  In r (keep_first lower seen (pre ++ r :: post)).
Proof.
  revert seen; induction pre as [|x pre IH]; intros seen Hseen Hpre; simpl.
  - destruct (existsb (cell_eqb (key lower r)) seen) eqn:Hr; [|left; reflexivity].
    apply seen_In in Hr; contradiction.
  - destruct (existsb (cell_eqb (key lower x)) seen).
    + apply IH; [exact Hseen | intros r' Hr'; apply Hpre; right; exact Hr'].
    + right; apply IH.
      * intros [Heq|Hin]; [apply (Hpre x); [left; reflexivity | exact Heq] | contradiction].
      * intros r' Hr'; apply Hpre; right; exact Hr'.
Qed.

Lemma contains_at_Some (c : cell) :
  contains_at c = true -> exists e, c = Some e /\ Py.contains "@" e = true.
Proof. destruct c as [e|]; simpl; [eauto | discriminate]. Qed.

Lemma name_cell_spec (named : bool) (r : source_row) :
  name_cell named r =
  match named, src_name r with
  | true, Some s => Some s
  | _, _ => Some ""
  end.
Proof. unfold name_cell; destruct named, (src_name r); reflexivity. Qed.

Lemma load_recipients_origin (df : source) (e n : cell) :
  In (e, n) (load_recipients lower (Some df)) ->
  exists pre r post,
    src_rows df = pre ++ r :: post /\ view lower df r = (e, n)
    /\ eligible lower df r = true
    /\ forall r', In r' pre -> eligible lower df r' = true -> key lower r' <> key lower r.
Proof.
  rewrite load_recipients_rows.
  intros Hin; apply in_map_iff in Hin; destruct Hin as [r [Hv Hr]].
  destruct (keep_first_split _ _ _ Hr) as (a & b & Hsplit & Ha).
  destruct (filter_split _ _ _ _ _ Hsplit) as (a' & b' & Hrows & Hfa & _ & Hel).
  exists a', r, b'; repeat split; try assumption.
  intros r' Hr' Hel'; apply Ha; rewrite <- Hfa; apply filter_In; split; assumption.
Qed.

Lemma load_recipients_keeps (df : source) (pre post : list source_row) (r : source_row) :
  src_rows df = pre ++ r :: post ->
  eligible lower df r = true ->
  (forall r', In r' pre -> eligible lower df r' = true -> key lower r' <> key lower r) ->
  In (view lower df r) (load_recipients lower (Some df)).
Proof.
  intros Hrows Hel Hpre; rewrite load_recipients_rows.
  apply in_map; rewrite Hrows, filter_app; simpl; rewrite Hel.
  apply keep_first_complete; [intros [] |].
  intros r' Hr'; apply filter_In in Hr'; destruct Hr' as [Hin Hel'].
  apply Hpre; assumption.
Qed.

(** C2, amended.  The result of [load_recipients] lists, in source order,
    rows of the source seen through [view]: the email trimmed and
    lower-cased, the name with the empty string for a missing value or a
    missing column.  Every email of the result is a string that contains
    "@", no email occurs twice, and the row kept for an email is the first
    one with that normalised email among the rows that pass the active and
    "@" filters; that row is always kept. *)
Theorem load_recipients_filtered (df : source) :
  let out := load_recipients lower (Some df) in
  subseq out (map (view lower df) (src_rows df))
  /\ (forall e n, In (e, n) out ->
        (exists a, e = Some a /\ Py.contains "@" a = true /\ a <> "")
        /\ exists s, n = Some s)
  /\ NoDup (map fst out)
  /\ (forall e n, In (e, n) out ->
        exists pre r post,
          src_rows df = pre ++ r :: post
          /\ e = normalize_cell lower (src_email r)
          /\ n = match has_name df, src_name r with
                 | true, Some s => Some s
                 | _, _ => Some ""
                 end
          /\ eligible lower df r = true
          /\ forall r', In r' pre -> eligible lower df r' = true -> key lower r' <> key lower r)
  /\ (forall pre r post,
        src_rows df = pre ++ r :: post ->
        eligible lower df r = true ->
        (forall r', In r' pre -> eligible lower df r' = true -> key lower r' <> key lower r) ->
        In (view lower df r) out).
Proof.
  intros out; unfold out.
  split; [rewrite load_recipients_rows; apply subseq_map, keep_first_subseq|].
  split.
  { intros e n Hin.
    destruct (load_recipients_origin df e n Hin) as (pre & r & post & _ & Hv & Hel & _).
    unfold view in Hv; injection Hv as <- <-.
    unfold eligible in Hel; apply andb_true_iff in Hel; destruct Hel as [_ Hat].
    destruct (contains_at_Some _ Hat) as [a [Ha Hc]].
    split.
    - exists a; repeat split; try assumption.
      intros ->; discriminate Hc.
    - rewrite name_cell_spec; destruct (has_name df), (src_name r); eauto. }
  split.
  { rewrite load_recipients_rows, map_map; simpl; apply keep_first_NoDup. }
  split.
  { intros e n Hin.
    destruct (load_recipients_origin df e n Hin) as (pre & r & post & Hrows & Hv & Hel & Hpre).
    exists pre, r, post; unfold view in Hv; injection Hv as <- <-.
    rewrite name_cell_spec; auto. }
  intros pre r post; apply load_recipients_keeps.
Qed.

End RecipientsFacts.

(** C2, as stated, fails: the first row with an email may be inactive, and
    then the row that survives is a later one. *)
Lemma load_recipients_first_occurrence_counterexample :
  load_recipients ascii_lower (Some source_inactive_first) = [(Some "a@x.com", Some "B")]
  /\ ~ survivor_is_first_occurrence ascii_lower source_inactive_first.
Proof.
  split; [reflexivity|].
  intros H.
  destruct (H (Some "a@x.com") (Some "B") (or_introl eq_refl))
    as (pre & r & post & Hrows & Hv & Hpre).
  destruct pre as [|x [|y pre]]; simpl in Hrows.
  - injection Hrows as <- _; discriminate Hv.
  - injection Hrows as <- <- _.
    apply (Hpre _ (or_introl eq_refl)); reflexivity.
  - injection Hrows as _ _ Hrows; destruct pre; discriminate Hrows.
Qed.

Lemma eq_True_spec (v : value) :
  eq_True v = true <->
  v = VBool true \/ v = VInt 1 \/ exists q, v = VFloat q /\ Qeq q 1.
Proof.
  destruct v as [|b|z|q|s]; simpl; split; intros H.
  - discriminate.
  - destruct H as [H|[H|[q [H _]]]]; discriminate.
  - subst; auto.
  - destruct H as [H|[H|[q [H _]]]]; try discriminate; injection H as ->; reflexivity.
  - apply Z.eqb_eq in H; subst; auto.
  - destruct H as [H|[H|[q [H _]]]]; try discriminate; injection H as ->; reflexivity.
  - apply Qeq_bool_iff in H; right; right; eauto.
  - destruct H as [H|[H|[q' [H Hq]]]]; try discriminate.
    injection H as ->; apply Qeq_bool_iff; exact Hq.
  - discriminate.
  - destruct H as [H|[H|[q [H _]]]]; discriminate.
Qed.

(** C5, as stated, fails: a column of zeros and ones is read as a column of
    integers, and the integer one is equal to [True]; the row with 1
    survives, the row with 0 does not. *)
Lemma load_recipients_active_counterexample :
  map src_active (src_rows source_active_one) = [VInt 1; VInt 0]
  /\ inferred (map src_active (src_rows source_active_one)) = true
  /\ load_recipients ascii_lower (Some source_active_one) = [(Some "a@x.com", Some "A")]
  /\ ~ survivors_literally_true ascii_lower source_active_one.
Proof.
  split; [reflexivity|].
  split; [reflexivity|].
  split; [reflexivity|].
  intros H.
  destruct (H (Some "a@x.com") (Some "A") (or_introl eq_refl)) as (r & Hin & Hv & Hact).
  simpl in Hin; destruct Hin as [<-|[<-|[]]]; discriminate.
Qed.

(** C5, amended.  With an "active" column, a row of the result comes from a
    source row whose active value is equal to [True]: the boolean true, the
    integer 1 or the float 1.0, and never text or a missing value.  Without
    the column the active values play no part: a row passes the filters as
    soon as its email contains "@", and the first row of each such email is
    kept. *)
Theorem load_recipients_active (lower : string -> string) (df : source) :
  (has_active df = true ->
   forall e n, In (e, n) (load_recipients lower (Some df)) ->
   exists r, In r (src_rows df) /\ view lower df r = (e, n)
             /\ eq_True (src_active r) = true
             /\ (src_active r = VBool true \/ src_active r = VInt 1
                 \/ exists q, src_active r = VFloat q /\ Qeq q 1)
             /\ (forall s, src_active r <> VStr s) /\ src_active r <> VNA)
  /\ (has_active df = false ->
      (forall r, eligible lower df r = contains_at (key lower r))
      /\ forall pre r post,
          src_rows df = pre ++ r :: post ->
          contains_at (key lower r) = true ->
          (forall r', In r' pre -> key lower r' <> key lower r) ->
          In (view lower df r) (load_recipients lower (Some df))).
Proof.
  split.
  - intros Hact e n Hin.
    destruct (load_recipients_origin lower df e n Hin)
      as (pre & r & post & Hrows & Hv & Hel & _).
    exists r.
    assert (Htrue : eq_True (src_active r) = true).
    { unfold eligible in Hel; rewrite Hact in Hel.
      apply andb_true_iff in Hel; tauto. }
    split; [rewrite Hrows; apply in_elt|].
    split; [exact Hv|].
    split; [exact Htrue|].
    split; [apply eq_True_spec; exact Htrue|].
    split; [intros s Hs | intros Hs]; rewrite Hs in Htrue; discriminate Htrue.
  - intros Hact.
    assert (Hel : forall r, eligible lower df r = contains_at (key lower r)).
    { intros r; unfold eligible; rewrite Hact; reflexivity. }
    split; [exact Hel|].
    intros pre r post Hrows Hat Hpre.
    apply (load_recipients_keeps lower df pre post r Hrows); [rewrite Hel; exact Hat|].
    intros r' Hr' _; apply Hpre; exact Hr'.
Qed.

(** ** Properties of build_report *)

Lemma insert_key_In (x k : string) (keys : list string) :
  In k (insert_key x keys) <-> k = x \/ In k keys.
Proof.
  induction keys as [|k' keys IH]; simpl.
  - intuition.
  - destruct (String.compare x k') eqn:Hc; simpl.
    + apply String.compare_eq_iff in Hc; subst; intuition.
    + intuition.
    + rewrite IH; intuition.
Qed.

Lemma insert_key_sorted (x : string) (keys : list string) :
  Sorted.StronglySorted String_as_OT.lt keys ->
  Sorted.StronglySorted String_as_OT.lt (insert_key x keys).
Proof.
  induction 1 as [|k' keys Hs IH Hall]; simpl.
  - constructor; constructor.
  - destruct (String.compare x k') eqn:Hc.
    + constructor; assumption.
    + constructor; [constructor; assumption|].
      constructor; [exact Hc|].
      rewrite Forall_forall in *; intros y Hy.
      transitivity k'; [exact Hc | apply Hall; exact Hy].
    + constructor; [exact IH|].
      rewrite Forall_forall in *; intros y Hy.
      apply insert_key_In in Hy; destruct Hy as [->|Hy]; [|apply Hall; exact Hy].
      unfold String_as_OT.lt; change String_as_OT.compare with String.compare.
      rewrite String.compare_antisym, Hc; reflexivity.
Qed.

Lemma group_keys_In (k : string) (cells : list value) :
  In k (group_keys cells) <-> In (VStr k) cells.
Proof.
  induction cells as [|v cells IH]; simpl; [reflexivity|].
  destruct v; simpl; rewrite ?insert_key_In, IH;
    intuition (try discriminate; try congruence).
Qed.

Lemma group_keys_sorted (cells : list value) :
  Sorted.StronglySorted String_as_OT.lt (group_keys cells).
Proof.
  induction cells as [|v cells IH]; simpl; [constructor|].
  destruct (key_of v); [apply insert_key_sorted|]; exact IH.
Qed.

Lemma filter_in_group (k : string) (rs : list item) :
  filter (in_group 1 k) (map record_row rs) = map record_row (with_status k rs).
Proof.
  induction rs as [|r rs IH]; simpl; [reflexivity|].
  unfold in_group at 1; simpl.
  destruct (status r =? k)%string; simpl; rewrite IH; reflexivity.
Qed.

Lemma agg_count_sku (rs : list item) :
  agg_count (map (at_col 0) (map record_row rs)) = Z.of_nat (length rs).
Proof.
  unfold agg_count; f_equal.
  induction rs as [|r rs IH]; simpl; [reflexivity | rewrite IH; reflexivity].
Qed.

(** Wrapping the partial sums is wrapping the sum. *)
Lemma wrap64_add (a b : Z) : wrap64 (a + wrap64 b) = wrap64 (a + b).
Proof.
  unfold wrap64; f_equal.
  replace (a + ((b + 2 ^ 63) mod 2 ^ 64 - 2 ^ 63) + 2 ^ 63)%Z
    with (a + (b + 2 ^ 63) mod 2 ^ 64)%Z by ring.
  rewrite Zplus_mod_idemp_r; f_equal; ring.
Qed.

Lemma wrap64_int64 (z : Z) : int64 z = true -> wrap64 z = z.
Proof.
  unfold int64, wrap64; intros H.
  apply andb_true_iff in H; destruct H as [Hl Hu].
  apply Z.leb_le in Hl; apply Z.ltb_lt in Hu.
  rewrite Z.mod_small; [ring|].
  change (2 ^ 64)%Z with (2 ^ 63 + 2 ^ 63)%Z; lia.
Qed.

Lemma agg_sum_qty (rs : list item) :
  agg_sum (map (at_col 2) (map record_row rs)) = wrap64 (total_qty rs).
Proof.
  unfold agg_sum, total_qty.
  induction rs as [|r rs IH]; simpl; [reflexivity|].
  rewrite IH; apply wrap64_add.
Qed.

Lemma exact_int64 (z : Z) : exact z -> int64 z = true.
Proof.
  unfold exact, int64; intros H.
  assert (H53 : (2 ^ 53 < 2 ^ 63)%Z) by reflexivity.
  apply andb_true_iff; split; [apply Z.leb_le | apply Z.ltb_lt]; lia.
Qed.

(** Below 53 bits the conversion to float64 changes nothing. *)
Lemma float_of_int_exact (z : Z) : exact z -> float_of_int z = z.
Proof.
  unfold exact, float_of_int; intros H.
  assert (He : (Z.log2 (Z.abs z) + 1 - 53 <= 0)%Z).
  { destruct (Z.eq_dec (Z.abs z) 0) as [H0|H0].
    - rewrite H0; simpl; lia.
    - assert (Hlog : (Z.log2 (Z.abs z) < 53)%Z) by (apply Z.log2_lt_pow2; lia).
      lia. }
  apply Z.leb_le in He; rewrite He; reflexivity.
Qed.

Lemma whole_num (z : Z) : whole (num z) = Some (float_of_int z).
Proof.
  unfold whole, num; rewrite Qfloor_Z.
  assert (H : Qeq_bool (inject_Z (float_of_int z)) (inject_Z (float_of_int z)) = true)
    by (apply Qeq_bool_iff; reflexivity).
  rewrite H; reflexivity.
Qed.

(** The report of a sequence of records that is not empty. *)
Lemma build_report_of_cons (r : item) (rs : list item) :
  build_report_of (r :: rs)
  = inr {| columns := report_columns;
           data := map (summary_row (r :: rs))
                       (group_keys (map (fun r => VStr (status r)) (r :: rs)))
                   ++ map detail_row (r :: rs) |}.
Proof.
  unfold build_report_of, from_records, groupby_agg.
  cbn [columns data index_of String.eqb Ascii.eqb Bool.eqb option_map].
  fold record_row.
  change (record_row r :: map record_row rs) with (map record_row (r :: rs)).
  generalize (r :: rs) as l; intros l.
  unfold concat, insert0; cbn [columns data].
  f_equal; f_equal.
  rewrite !map_map; f_equal.
  apply map_ext; intros k.
  rewrite filter_in_group, agg_count_sku, agg_sum_qty; reflexivity.
Qed.

Lemma details_of_rows (rs : list item) (keys : list string) (k : string) :
  filter (fun row => is_text "detail" (at_col 0 row) && is_text k (at_col 1 row))
         (map (summary_row rs) keys ++ map detail_row rs)
  = map detail_row (with_status k rs).
Proof.
  rewrite filter_app.
  assert (Hs : forall l,
             filter (fun row => is_text "detail" (at_col 0 row) && is_text k (at_col 1 row))
                    (map (summary_row rs) l) = []).
  { induction l as [|x l IH]; simpl; [reflexivity | exact IH]. }
  rewrite Hs; clear Hs; simpl.
  unfold with_status; induction rs as [|r rs' IH]; simpl; [reflexivity|].
  destruct (status r =? k)%string; simpl; rewrite IH; reflexivity.
Qed.

(** The sum of the quantities shown by detail rows, when each is exact. *)
Lemma whole_sum_details (rs : list item) :
  Forall (fun r => exact (qty r)) rs ->
  whole_sum (map (at_col 5) (map detail_row rs)) = total_qty rs.
Proof.
  unfold whole_sum, total_qty.
  induction 1 as [|r rs Hr Hall IH]; [reflexivity|].
  cbn [map fold_right]; rewrite IH.
  change (at_col 5 (detail_row r)) with (num (qty r)).
  rewrite whole_num, (float_of_int_exact _ Hr); reflexivity.
Qed.

Lemma with_status_Forall (P : item -> Prop) (k : string) (rs : list item) :
  Forall P rs -> Forall P (with_status k rs).
Proof.
  intros H; apply Forall_forall; intros r Hr.
  apply filter_In in Hr; rewrite Forall_forall in H; apply H, Hr.
Qed.

Lemma with_status_length (k : string) (rs : list item) :
  (Z.of_nat (length (with_status k rs)) <= Z.of_nat (length rs))%Z.
Proof.
  apply Nat2Z.inj_le; unfold with_status.
  induction rs as [|r rs IH]; simpl; [lia|].
  destruct (status r =? k)%string; simpl; lia.
Qed.

(** Within the exact range the report agrees with itself as the claim C1
    says. *)
Lemma summary_agrees_exact (rs : list item) (keys : list string) :
  exact (Z.of_nat (length rs)) ->
  Forall (fun r => exact (qty r)) rs ->
  (forall k, exact (total_qty (with_status k rs))) ->
  summary_agrees {| columns := report_columns;
                    data := map (summary_row rs) keys ++ map detail_row rs |}.
Proof.
  intros Hn Hq Hs row Hin Hsec.
  cbn [data] in Hin; apply in_app_or in Hin; destruct Hin as [Hin|Hin];
    apply in_map_iff in Hin; destruct Hin as [k [<- Hk]]; [|discriminate Hsec].
  exists k; unfold details_of; cbn [data].
  rewrite details_of_rows, length_map.
  split; [reflexivity|].
  assert (Hlen : exact (Z.of_nat (length (with_status k rs)))).
  { pose proof (with_status_length k rs); unfold exact in *; lia. }
  split.
  - change (at_col 2 (summary_row rs k))
      with (num (Z.of_nat (length (with_status k rs)))).
    rewrite whole_num, (float_of_int_exact _ Hlen); reflexivity.
  - change (at_col 3 (summary_row rs k))
      with (num (wrap64 (total_qty (with_status k rs)))).
    rewrite whole_num, (wrap64_int64 _ (exact_int64 _ (Hs k))),
            (float_of_int_exact _ (Hs k)).
    rewrite whole_sum_details; [reflexivity|].
    apply with_status_Forall; exact Hq.
Qed.

(** C1, as stated, fails: the quantities 2^63 - 1 and 1 of one status are
    64-bit integers, their sum is not, and the total of the summary row is
    the sum wrapped around, - 2^63, while the detail rows show 2^63 (the
    float64 nearest to 2^63 - 1) and 1. *)
Lemma build_report_summary_counterexample :
  Forall (fun r => int64 (qty r) = true) overflowing_data
  /\ exists t,
      build_report_of overflowing_data = inr t
      /\ data t
         = [ [VStr "summary"; VStr "in_stock"; VFloat (inject_Z 2);
              VFloat (inject_Z (- 2 ^ 63)); VNA; VNA];
             [VStr "detail"; VStr "in_stock"; VNA; VNA; VStr "A"; VFloat (inject_Z (2 ^ 63))];
             [VStr "detail"; VStr "in_stock"; VNA; VNA; VStr "B"; VFloat (inject_Z 1)] ]
      /\ ~ summary_agrees t.
Proof.
  split; [repeat constructor|].
  eexists; split; [reflexivity|].
  split; [reflexivity|].
  intros H.
  destruct (H [VStr "summary"; VStr "in_stock"; VFloat (inject_Z 2);
               VFloat (inject_Z (- 2 ^ 63)); VNA; VNA])
    as (k & Hk & _ & Hsum); [left; reflexivity | reflexivity |].
  injection Hk as <-.
  vm_compute in Hsum; discriminate Hsum.
Qed.

(** C1, amended.  The quantities are 64-bit integers.  On no records
    [build_report] raises [KeyError], the frame having no "status" column.
    On any other sequence of records the report has the section tag as its
    first column; its rows are one summary row per status that occurs, in
    increasing order of status, followed by one detail row per record, in
    order.  The numbers of the report are float64 cells: in each summary row
    total_skus is the number of detail rows of the report with that status
    and total_qty is the sum of the quantities of that status wrapped around
    to 64 bits, both rounded to float64.  When the number of records, the
    quantities and their sums per status are below 2^53 in absolute value,
    nothing wraps or rounds, and total_qty is the sum of the qty of the
    detail rows with that status.  The report of the script has three
    summary rows, with total_skus 1 and total_qty 12, 2 and 0. *)
Theorem build_report_summary (rs : list item) :
  Forall (fun r => int64 (qty r) = true) rs ->
  match build_report_of rs with
  | inl e => rs = [] /\ e = KeyError "status"
  | inr t =>
      rs <> []
      /\ columns t = "section" :: ["status"; "total_skus"; "total_qty"; "sku"; "qty"]
      /\ (exists keys,
            Sorted.StronglySorted String_as_OT.lt keys
            /\ (forall k, In k keys <-> exists r, In r rs /\ status r = k)
            /\ data t = map (summary_row rs) keys ++ map detail_row rs
            /\ Forall (fun row => at_col 0 row = VStr "summary") (map (summary_row rs) keys)
            /\ Forall (fun row => at_col 0 row = VStr "detail") (map detail_row rs))
      /\ (forall row,
            In row (data t) -> at_col 0 row = VStr "summary" ->
            exists k,
              at_col 1 row = VStr k
              /\ at_col 2 row = num (Z.of_nat (length (details_of t k)))
              /\ at_col 3 row = num (wrap64 (total_qty (with_status k rs))))
      /\ (exact (Z.of_nat (length rs)) ->
          Forall (fun r => exact (qty r)) rs ->
          (forall k, exact (total_qty (with_status k rs))) ->
          summary_agrees t)
  end
  /\ build_report
     = inr {| columns := ["section"; "status"; "total_skus"; "total_qty"; "sku"; "qty"];
              data :=
                [ [VStr "summary"; VStr "in_stock"; VFloat (inject_Z 1);
                   VFloat (inject_Z 12); VNA; VNA];
                  [VStr "summary"; VStr "low_stock"; VFloat (inject_Z 1);
                   VFloat (inject_Z 2); VNA; VNA];
                  [VStr "summary"; VStr "out_of_stock"; VFloat (inject_Z 1);
                   VFloat (inject_Z 0); VNA; VNA];
                  [VStr "detail"; VStr "in_stock"; VNA; VNA; VStr "D-235700";
                   VFloat (inject_Z 12)];
                  [VStr "detail"; VStr "low_stock"; VNA; VNA; VStr "D-226994";
                   VFloat (inject_Z 2)];
                  [VStr "detail"; VStr "out_of_stock"; VNA; VNA; VStr "D-211744";
                   VFloat (inject_Z 0)] ] |}.
Proof.
  intros _.
  split; [|reflexivity].
  destruct rs as [|r0 rs0]; [split; reflexivity|].
  rewrite build_report_of_cons.
  set (rs := r0 :: rs0).
  set (keys := group_keys (map (fun r => VStr (status r)) rs)).
  split; [discriminate|].
  split; [reflexivity|].
  split.
  { exists keys.
    split; [apply group_keys_sorted|].
    split.
    { intros k; unfold keys; rewrite group_keys_In, in_map_iff; split.
      - intros [r [Hr Hin]]; exists r; split; [exact Hin | congruence].
      - intros [r [Hin Hr]]; exists r; split; [congruence | exact Hin]. }
    split; [reflexivity|].
    split; apply Forall_forall; intros row Hrow; apply in_map_iff in Hrow;
      destruct Hrow as [k [<- _]]; reflexivity. }
  split.
  { intros row Hin Hsec.
    cbn [data] in Hin; apply in_app_or in Hin; destruct Hin as [Hin|Hin];
      apply in_map_iff in Hin; destruct Hin as [k [<- Hk]]; [|discriminate Hsec].
    exists k; unfold details_of; cbn [data].
    rewrite details_of_rows, length_map.
    repeat split. }
  apply summary_agrees_exact.
Qed.

Lemma build_report_summary_witness :
  Forall (fun r => int64 (qty r) = true) sample_data
  /\ exact (Z.of_nat (length sample_data))
  /\ Forall (fun r => exact (qty r)) sample_data
  /\ (forall k, exact (total_qty (with_status k sample_data)))
  /\ exists t, build_report_of sample_data = inr t /\ summary_agrees t.
Proof.
  assert (Hi : Forall (fun r => int64 (qty r) = true) sample_data)
    by (repeat constructor).
  assert (Hn : exact (Z.of_nat (length sample_data))) by reflexivity.
  assert (Hq : Forall (fun r => exact (qty r)) sample_data)
    by (repeat constructor).
  assert (Hs : forall k, exact (total_qty (with_status k sample_data))).
  { intros k; unfold with_status, sample_data; cbn [filter status].
    destruct ("in_stock" =? k)%string, ("low_stock" =? k)%string,
             ("out_of_stock" =? k)%string; reflexivity. }
  split; [exact Hi|].
  split; [exact Hn|].
  split; [exact Hq|].
  split; [exact Hs|].
  pose proof (proj1 (build_report_summary sample_data Hi)) as H.
  destruct H as (_ & _ & _ & _ & H).
  eexists; split; [reflexivity | exact (H Hn Hq Hs)].
Defined.

(** ** Base64: decoding what was encoded *)

Lemma below_In (n : nat) (x : N) : (x < N.of_nat n)%N -> In x (below n).
Proof.
  induction n as [|n IH]; intros H; [lia|].
  simpl; destruct (N.eq_dec x (N.of_nat n)) as [->|Hne]; [left; reflexivity|].
  right; apply IH; lia.
Qed.

Lemma regroup_all : forallb (fun x => forallb (regroup_ok x) (below 256)) (below 256) = true.
Proof. vm_compute; reflexivity. Qed.

Lemma sextet_all : forallb sextet_ok (below 64) = true.
Proof. vm_compute; reflexivity. Qed.

Lemma regroup_bytes (a b : ascii) : regroup_ok (N_of_ascii a) (N_of_ascii b) = true.
Proof.
  pose proof regroup_all as H; rewrite forallb_forall in H.
  specialize (H (N_of_ascii a) (below_In 256 _ (N_ascii_bounded a))).
  rewrite forallb_forall in H.
  exact (H (N_of_ascii b) (below_In 256 _ (N_ascii_bounded b))).
Qed.

Lemma sextet_char (n : N) :
  (n < 64)%N ->
  Base64.a2b (Base64.b2a n) = Some n /\ Ascii.eqb (Base64.b2a n) Base64.pad = false.
Proof.
  intros Hn; pose proof sextet_all as H; rewrite forallb_forall in H.
  specialize (H n (below_In 64 n Hn)); unfold sextet_ok in H.
  apply andb_true_iff in H; destruct H as [H1 H2].
  destruct (Base64.a2b (Base64.b2a n)) as [m|]; [|discriminate H1].
  apply N.eqb_eq in H1; subst m.
  split; [reflexivity | apply negb_true_iff; exact H2].
Qed.

Ltac regroup_facts a b :=
  let H := fresh "H" in
  pose proof (regroup_bytes a b) as H; unfold regroup_ok in H;
  repeat (apply andb_true_iff in H; let H' := fresh "H" in destruct H as [H H']);
  repeat match goal with
         | H : (_ <? _)%N = true |- _ => apply N.ltb_lt in H
         | H : (_ =? _)%N = true |- _ => apply N.eqb_eq in H
         end.

Lemma a2b_loop_data (n : N) (r : list ascii) (quad_pos : nat) (leftchar : N) (pads : nat) :
  (n < 64)%N ->
  Base64.a2b_loop (Base64.b2a n :: r) quad_pos leftchar pads =
  match quad_pos with
  | 0 => Base64.a2b_loop r 1 n 0
  | 1 => Base64.emit (Base64.byte (N.lor (N.shiftl leftchar 2) (N.shiftr n 4)))
                     (Base64.a2b_loop r 2 (N.land n 15) 0)
  | 2 => Base64.emit (Base64.byte (N.lor (N.shiftl leftchar 4) (N.shiftr n 2)))
                     (Base64.a2b_loop r 3 (N.land n 3) 0)
  | _ => Base64.emit (Base64.byte (N.lor (N.shiftl leftchar 6) n))
                     (Base64.a2b_loop r 0 0 0)
  end.
Proof.
  intros Hn; destruct (sextet_char n Hn) as [Ha Hp].
  cbn [Base64.a2b_loop]; rewrite Hp, Ha; reflexivity.
Qed.

Lemma a2b_loop_pad (r : list ascii) (quad_pos : nat) (leftchar : N) (pads : nat) :
  Base64.a2b_loop (Base64.pad :: r) quad_pos leftchar pads =
  if 2 <=? quad_pos then
    if 4 <=? quad_pos + S pads then Some []
    else Base64.a2b_loop r quad_pos leftchar (S pads)
  else Base64.a2b_loop r quad_pos leftchar pads.
Proof. reflexivity. Qed.

Lemma a2b_loop_newline (r : list ascii) (quad_pos : nat) (leftchar : N) (pads : nat) :
  Base64.a2b_loop (Base64.newline :: r) quad_pos leftchar pads
  = Base64.a2b_loop r quad_pos leftchar pads.
Proof. reflexivity. Qed.

(** At the start of a group neither the left-over bits nor the count of
    pads matter. *)
Lemma a2b_loop_start (s : list ascii) (leftchar : N) (pads : nat) :
  Base64.a2b_loop s 0 leftchar pads = Base64.a2b_loop s 0 0 0.
Proof.
  revert leftchar pads; induction s as [|ch s IH]; intros leftchar pads; [reflexivity|].
  cbn [Base64.a2b_loop].
  destruct (Ascii.eqb ch Base64.pad).
  - cbn [Nat.leb]; rewrite IH; reflexivity.
  - destruct (Base64.a2b ch); [reflexivity|]. rewrite IH; reflexivity.
Qed.

Lemma byte_of_ascii (a : ascii) : Base64.byte (N_of_ascii a) = a.
Proof. apply ascii_N_embedding. Qed.

(** A full group of four characters gives its three bytes back. *)
Lemma a2b_loop_quad (a b c : ascii) (r : list ascii) :
  Base64.a2b_loop (Base64.quad a b c ++ r) 0 0 0
  = Base64.emit a (Base64.emit b (Base64.emit c (Base64.a2b_loop r 0 0 0))).
Proof.
  regroup_facts a b. regroup_facts b c. regroup_facts c c.
  unfold Base64.quad; cbn [app].
  rewrite !a2b_loop_data by assumption.
  repeat match goal with
         | H : _ = _ |- _ => rewrite H
         end.
  rewrite !byte_of_ascii; reflexivity.
Qed.

Lemma a2b_loop_last1 (a : ascii) (r : list ascii) :
  Base64.a2b_loop (Base64.encode [a] ++ r) 0 0 0 = Some [a].
Proof.
  regroup_facts a a.
  cbn [Base64.encode app].
  rewrite !a2b_loop_data by assumption.
  rewrite !a2b_loop_pad; cbn [Nat.leb Nat.add].
  repeat match goal with
         | H : _ = _ |- _ => rewrite H
         end.
  rewrite byte_of_ascii; reflexivity.
Qed.

Lemma a2b_loop_last2 (a b : ascii) (r : list ascii) :
  Base64.a2b_loop (Base64.encode [a; b] ++ r) 0 0 0 = Some [a; b].
Proof.
  regroup_facts a b. regroup_facts b b.
  cbn [Base64.encode app].
  rewrite !a2b_loop_data by assumption.
  rewrite !a2b_loop_pad; cbn [Nat.leb Nat.add].
  repeat match goal with
         | H : _ = _ |- _ => rewrite H
         end.
  rewrite !byte_of_ascii; reflexivity.
Qed.

Lemma list_ind3 {A : Type} (P : list A -> Prop) :
  P [] -> (forall a, P [a]) -> (forall a b, P [a; b]) ->
  (forall a b c l, P l -> P (a :: b :: c :: l)) ->
  forall l, P l.
Proof.
  intros H0 H1 H2 H3.
  fix rec 1; intros l.
  destruct l as [|a [|b [|c l]]]; [exact H0 | apply H1 | apply H2 |].
  apply H3, rec.
Qed.

(** Decoding the characters of [bs] followed by [r]: the bytes come back,
    and decoding goes on with [r] unless the last group was padded. *)
Lemma a2b_loop_encode (bs r : list ascii) :
  Base64.a2b_loop (Base64.encode bs ++ r) 0 0 0 =
  if length bs mod 3 =? 0
  then option_map (app bs) (Base64.a2b_loop r 0 0 0)
  else Some bs.
Proof.
  induction bs as [| a | a b | a b c l IH] using list_ind3.
  - simpl; destruct (Base64.a2b_loop r 0 0 0); reflexivity.
  - apply a2b_loop_last1.
  - apply a2b_loop_last2.
  - change (Base64.encode (a :: b :: c :: l)) with (Base64.quad a b c ++ Base64.encode l).
    rewrite <- app_assoc, a2b_loop_quad, IH.
    change (length (a :: b :: c :: l)) with (3 + length l).
    replace (3 + length l) with (length l + 1 * 3) by lia.
    rewrite Nat.Div0.mod_add.
    destruct (length l mod 3 =? 0); [|reflexivity].
    destruct (Base64.a2b_loop r 0 0 0); reflexivity.
Qed.

Lemma slices_nil (fuel n : nat) : Base64.slices fuel n [] = [].
Proof. destruct fuel; reflexivity. Qed.

Lemma a2b_loop_slices (fuel : nat) (bs : list ascii) :
  length bs <= fuel ->
  Base64.a2b_loop (flat_map Base64.b2a_base64 (Base64.slices fuel 57 bs)) 0 0 0 = Some bs.
Proof.
  revert bs; induction fuel as [|fuel IH]; intros bs Hlen.
  - destruct bs; [reflexivity | simpl in Hlen; lia].
  - destruct bs as [|x bs']; [reflexivity|].
    set (bs := x :: bs') in *.
    change (Base64.slices (S fuel) 57 bs)
      with (firstn 57 bs :: Base64.slices fuel 57 (skipn 57 bs)).
    cbn [flat_map]; unfold Base64.b2a_base64 at 1.
    rewrite <- !app_assoc; cbn [app].
    rewrite a2b_loop_encode, a2b_loop_newline.
    destruct (Nat.le_gt_cases 57 (length bs)) as [Hge|Hlt].
    + rewrite length_firstn, Nat.min_l by exact Hge.
      change (57 mod 3 =? 0) with true; cbv iota.
      rewrite IH.
      * cbn [option_map]; rewrite firstn_skipn; reflexivity.
      * rewrite length_skipn; lia.
    + rewrite firstn_all2, skipn_all2, slices_nil by lia.
      cbn [flat_map].
      destruct (length bs mod 3 =? 0); [|reflexivity].
      cbn [Base64.a2b_loop Nat.eqb option_map]; rewrite app_nil_r; reflexivity.
Qed.

(** Decoding what [encodebytes] made gives the bytes back. *)
Lemma a2b_base64_encodebytes (s : string) :
  Base64.a2b_base64 (Base64.encodebytes s) = Some s.
Proof.
  unfold Base64.a2b_base64, Base64.encodebytes.
  rewrite list_ascii_of_string_of_list_ascii, a2b_loop_slices by reflexivity.
  cbn [option_map]; rewrite string_of_list_ascii_of_string; reflexivity.
Qed.

(** ** Properties of the messages *)

Lemma append_assoc (a b c : string) : ((a ++ b) ++ c = a ++ (b ++ c))%string.
Proof. induction a as [|x a IH]; simpl; [reflexivity | rewrite IH; reflexivity]. Qed.

Lemma html_text_truthy (g preview : string) : Py.truthy (html_text g preview) = true.
Proof. reflexivity. Qed.

Lemma html_text_preview (g preview : string) : Substring preview (html_text g preview).
Proof.
  exists (html_open ++ ("<p>Bok " ++ g ++ ",</p>") ++ html_middle)%string, html_close.
  unfold html_text; rewrite !append_assoc; reflexivity.
Qed.

Lemma html_text_greeting (g preview : string) :
  Substring ("<p>Bok " ++ g ++ ",</p>")%string (html_text g preview).
Proof.
  exists html_open, (html_middle ++ preview ++ html_close)%string.
  unfold html_text; rewrite !append_assoc; reflexivity.
Qed.

Lemma plain_text_greeting (g : string) :
  Substring g (plain_text g) /\ Substring ("Bok " ++ g ++ ",")%string (plain_text g).
Proof.
  split.
  - exists "Bok ", ("," ++ plain_rest)%string; reflexivity.
  - exists EmptyString, plain_rest.
    unfold plain_text; rewrite !append_assoc; reflexivity.
Qed.

Lemma name_or_empty_Some (name : string) : name_or_empty (Some name) = inr name.
Proof.
  unfold name_or_empty, Py.truthy.
  destruct (String.eqb_spec name ""); subst; reflexivity.
Qed.

Lemma greeting_of_spec (name : string) :
  greeting_of name = if (Py.strip name =? "")%string then "pozdrav" else Py.strip name.
Proof.
  unfold greeting_of, Py.truthy; destruct (Py.strip name =? "")%string; reflexivity.
Qed.

(** The message of a row that has a name. *)
Lemma build_message_named (cfg : config) (report_bytes preview_html : string)
    (email : cell) (name : string) :
  build_message cfg report_bytes preview_html (email, Some name)
  = inr (Multipart "mixed"
           [("From", Some (cfg_str cfg "from_email")); ("To", email);
            ("Subject", Some "Test s pandas izvještajem")]
           [ Multipart "alternative" []
               [ MIMEText (plain_text (greeting_of name)) "plain";
                 MIMEText (html_text (greeting_of name) preview_html) "html" ];
             attachment_part ("report.csv", report_bytes) ]).
Proof.
  unfold build_message; cbn [fst snd]; rewrite name_or_empty_Some.
  unfold make_email; rewrite html_text_truthy; reflexivity.
Qed.

(** C7.  The message built for a recipient and the CSV bytes of the report
    has one attachment part, and decoding its payload gives the bytes back;
    the body of its HTML part, decoded, contains the preview table, and the
    body of its plain part, decoded, contains the greeting name. *)
Theorem make_email_attachment (cfg : config) (report_bytes preview_html : string)
    (email : cell) (name : string) :
  exists headers alt plain html att_headers att,
    build_message cfg report_bytes preview_html (email, Some name)
    = inr (Multipart "mixed" headers
             [ Multipart "alternative" alt
                 [Text "plain" "utf-8" plain; Text "html" "utf-8" html];
               Base "application" "octet-stream" att_headers att ])
    /\ attachments_of
         (Multipart "mixed" headers
            [ Multipart "alternative" alt
                [Text "plain" "utf-8" plain; Text "html" "utf-8" html];
              Base "application" "octet-stream" att_headers att ])
       = [Base "application" "octet-stream" att_headers att]
    /\ att_headers = [("Content-Transfer-Encoding", "base64");
                      ("Content-Disposition",
                       ("attachment; filename=" ++ dquote ++ "report.csv" ++ dquote)%string)]
    /\ Base64.a2b_base64 att = Some report_bytes
    /\ (exists body, Base64.a2b_base64 html = Some body /\ Substring preview_html body)
    /\ (exists body, Base64.a2b_base64 plain = Some body
                     /\ Substring (greeting_of name) body).
Proof.
  do 6 eexists.
  split; [apply build_message_named|].
  split; [reflexivity|].
  split; [reflexivity|].
  split; [apply a2b_base64_encodebytes|].
  split; eexists; (split; [apply a2b_base64_encodebytes|]).
  - apply html_text_preview.
  - apply plain_text_greeting.
Qed.

(** C9, as stated, fails: a name made of a space is not empty, and the
    greeting is the fallback word. *)
Lemma greeting_counterexample :
  " " <> "" /\ greeting_of " " = "pozdrav" /\ ~ greeting_is_name_unless_empty.
Proof.
  split; [discriminate|].
  split; [reflexivity|].
  intros H; specialize (H " "); discriminate H; discriminate.
Qed.

(** C9, amended.  The greeting name is the recipient's name without the
    white space around it when that is not empty, and "pozdrav" otherwise;
    it is the name greeted in the plain body and in the HTML body of the
    recipient's message. *)
Theorem greeting_used (cfg : config) (report_bytes preview_html : string)
    (email : cell) (name : string) :
  greeting_of name = (if (Py.strip name =? "")%string then "pozdrav" else Py.strip name)
  /\ exists headers alt plain html attachment,
      build_message cfg report_bytes preview_html (email, Some name)
      = inr (Multipart "mixed" headers
               [ Multipart "alternative" alt
                   [Text "plain" "utf-8" plain; Text "html" "utf-8" html];
                 attachment ])
      /\ (exists body, Base64.a2b_base64 plain = Some body
                       /\ Substring ("Bok " ++ greeting_of name ++ ",")%string body)
      /\ (exists body, Base64.a2b_base64 html = Some body
                       /\ Substring ("<p>Bok " ++ greeting_of name ++ ",</p>")%string body).
Proof.
  split; [apply greeting_of_spec|].
  do 5 eexists.
  split; [apply build_message_named|].
  split; eexists; (split; [apply a2b_base64_encodebytes|]).
  - apply plain_text_greeting.
  - apply html_text_greeting.
Qed.

(** ** Properties of the run *)

Lemma load_env_inr (int_beyond : string -> option Z) (env : environ) (cfg : config) :
  load_env int_beyond env = inr cfg ->
  exists port, Py.int int_beyond (getenv_default env "SMTP_PORT" "587") = Some port
               /\ cfg = cfg_literal env port
               /\ missing cfg = [].
Proof.
  unfold load_env; intros H.
  destruct (Py.int int_beyond (getenv_default env "SMTP_PORT" "587")) as [port|];
    [|discriminate H].
  exists port; split; [reflexivity|].
  destruct (missing (cfg_literal env port)) eqn:Hm; [|discriminate H].
  injection H as <-; auto.
Qed.

(** A configuration that was loaded holds the variable under each key. *)
Lemma load_env_fallback (int_beyond : string -> option Z) (env : environ) (cfg : config) :
  load_env int_beyond env = inr cfg ->
  exists t, env "FALLBACK_TO" = Some t /\ t <> "" /\ cfg_str cfg "fallback_to" = t.
Proof.
  intros H; destruct (load_env_inr int_beyond env cfg H) as (port & _ & -> & Hm).
  rewrite missing_cfg_literal in Hm.
  assert (Hb : none_or_empty (cfg_get (cfg_literal env port) "fallback_to") = false).
  { destruct (none_or_empty (cfg_get (cfg_literal env port) "fallback_to")) eqn:Hb;
      [|reflexivity].
    assert (Hin : In "fallback_to"
                     (filter (fun k => none_or_empty (cfg_get (cfg_literal env port) k))
                             required_keys)).
    { apply filter_In; split; [simpl; tauto | exact Hb]. }
    rewrite Hm in Hin; contradiction. }
  unfold cfg_str; cbn in Hb |- *; unfold getenv in *.
  destruct (env "FALLBACK_TO") as [t|]; [|discriminate Hb].
  exists t; repeat split.
  intros ->; discriminate Hb.
Qed.

Section DriverFacts.

Variable int_beyond : string -> option Z.
Variable lower : string -> string.
Variable to_csv : frame -> string.
Variable to_html : frame -> string.
Context {World : Type}.
Variable api : smtp World.

(** One turn of the loop for a row whose message could be built. *)
Lemma send_all_cons (cfg : config) (report_bytes preview_html : string)
    (row : cell * cell) (rest : list (cell * cell)) (w : World) (msg : message) :
  build_message cfg report_bytes preview_html row = inr msg ->
  send_all api cfg report_bytes preview_html (row :: rest) w =
  let (w1, r) := send_email api cfg msg w in
  let '(w2, events, result) := send_all api cfg report_bytes preview_html rest w1 in
  (w2,
   Send msg
   :: Print match r with
            | None => sent_line (fst row)
            | Some e => failed_line (fst row) e
            end
   :: events,
   result).
Proof. intros H; cbn [send_all]; rewrite H; reflexivity. Qed.


Lemma build_message_of_named (cfg : config) (report_bytes preview_html : string)
    (row : cell * cell) :
  named row -> exists msg, build_message cfg report_bytes preview_html row = inr msg.
Proof.
  destruct row as [email name]; intros [n Hn]; simpl in Hn; subst name.
  eexists; apply build_message_named.
Qed.

(** When the message of every row can be built the loop goes through all of
    them. *)
Lemma send_all_built (cfg : config) (report_bytes preview_html : string)
    (rows : list (cell * cell)) (w : World) :
  Forall (fun row => exists m, build_message cfg report_bytes preview_html row = inr m)
         rows ->
  exists w' events,
    send_all api cfg report_bytes preview_html rows w = (w', events, None)
    /\ Forall2 (fun row m => build_message cfg report_bytes preview_html row = inr m)
               rows (sends events)
    /\ length (prints events) = length rows.
Proof.
  intros Hall; revert w; induction Hall as [|row rows Hrow Hall IH]; intros w.
  - exists w, []; repeat split; constructor.
  - destruct Hrow as [msg Hmsg].
    rewrite (send_all_cons _ _ _ _ _ _ _ Hmsg).
    destruct (send_email api cfg msg w) as [w1 r].
    destruct (IH w1) as (w2 & events & -> & Hs & Hp).
    exists w2; eexists; split; [reflexivity|].
    cbn [sends prints length]; split; [constructor; assumption | rewrite Hp; reflexivity].
Qed.

Lemma send_all_named (cfg : config) (report_bytes preview_html : string)
    (rows : list (cell * cell)) (w : World) :
  Forall named rows ->
  exists w' events,
    send_all api cfg report_bytes preview_html rows w = (w', events, None)
    /\ Forall2 (fun row m => build_message cfg report_bytes preview_html row = inr m)
               rows (sends events)
    /\ length (prints events) = length rows.
Proof.
  intros H; apply send_all_built.
  apply Forall_forall; intros row Hrow; rewrite Forall_forall in H.
  apply build_message_of_named, H, Hrow.
Qed.



(** C4.  Without a recipient file [load_recipients] returns the empty frame,
    and no exception; the recipients of the run are then the one row made of
    the fallback address of the configuration, which is the value of
    FALLBACK_TO, and the name "Primatelj". *)
Theorem load_recipients_absent (env : environ) (cfg : config) :
  load_env int_beyond env = inr cfg ->
  load_recipients lower None = []
  /\ exists t,
      env "FALLBACK_TO" = Some t
      /\ recipients_of cfg (load_recipients lower None) = [(Some t, Some "Primatelj")]
      /\ forall w,
          exists report,
            build_report = inr report
            /\ main int_beyond lower to_csv to_html api env None w
               = send_all api cfg (to_csv report) (to_html (head 10 report))
                          [(Some t, Some "Primatelj")] w.
Proof.
  intros Hcfg; split; [reflexivity|].
  destruct (load_env_fallback int_beyond env cfg Hcfg) as (t & Ht & _ & Hstr).
  exists t; split; [exact Ht|].
  split; [cbn [load_recipients recipients_of]; rewrite Hstr; reflexivity|].
  intros w; eexists; split; [reflexivity|].
  unfold main; rewrite Hcfg.
  cbn [load_recipients recipients_of]; rewrite Hstr; reflexivity.
Qed.

(** C10.  When SMTP_PORT is set to text that [int] rejects, [load_env]
    raises the [ValueError] of that text whatever the other variables are,
    so also when none is missing; it is not the error that lists missing
    keys, and the run ends with it before anything is sent or printed. *)
Theorem load_env_bad_port (env : environ) (s : string) :
  env "SMTP_PORT" = Some s ->
  Py.int int_beyond s = None ->
  load_env int_beyond env = inl (ValueError s)
  /\ (forall m, load_env int_beyond env <> inl (RuntimeError m))
  /\ forall file w,
      main int_beyond lower to_csv to_html api env file w
      = (w, [], Some (ValueError s)).
Proof.
  intros Hs Hint.
  assert (H : load_env int_beyond env = inl (ValueError s)).
  { unfold load_env, getenv_default; rewrite Hs, Hint; reflexivity. }
  split; [exact H|].
  split; [intros m; rewrite H; discriminate|].
  intros file w; unfold main; rewrite H; reflexivity.
Qed.

End DriverFacts.

Lemma load_recipients_absent_witness :
  load_env int_ascii_only env_four_set = inr (cfg_literal env_four_set 587)
  /\ load_recipients ascii_lower None = []
  /\ exists t,
      env_four_set "FALLBACK_TO" = Some t
      /\ recipients_of (cfg_literal env_four_set 587) (load_recipients ascii_lower None)
         = [(Some t, Some "Primatelj")]
      /\ forall w,
          exists report,
            build_report = inr report
            /\ main int_ascii_only ascii_lower no_text no_text quiet_api env_four_set None w
               = send_all quiet_api (cfg_literal env_four_set 587)
                          (no_text report) (no_text (head 10 report))
                          [(Some t, Some "Primatelj")] w.
Proof.
  split; [reflexivity|].
  exact (load_recipients_absent int_ascii_only ascii_lower no_text no_text quiet_api
           env_four_set (cfg_literal env_four_set 587) eq_refl).
Defined.

Lemma load_env_bad_port_witness :
  env_bad_port "SMTP_PORT" = Some "25a"
  /\ Py.int int_ascii_only "25a" = None
  /\ load_env int_ascii_only env_bad_port = inl (ValueError "25a")
  /\ (forall m, load_env int_ascii_only env_bad_port <> inl (RuntimeError m))
  /\ forall file w,
      main int_ascii_only ascii_lower no_text no_text quiet_api env_bad_port file w
      = (w, [], Some (ValueError "25a")).
Proof.
  split; [reflexivity|].
  split; [reflexivity|].
  exact (load_env_bad_port int_ascii_only ascii_lower no_text no_text quiet_api
           env_bad_port "25a" eq_refl eq_refl).
Defined.

Example main_two_recipients :
  main int_ascii_only ascii_lower no_text no_text quiet_api env_four_set
       (Some {| has_name := true; has_active := false;
                src_rows :=
                  [ {| src_email := Some "Ana@Example.org"; src_name := Some " Ana ";
                       src_active := VNA |};
                    {| src_email := Some "ivo@example.org"; src_name := None;
                       src_active := VNA |} ] |}) tt
  = (tt,
     [ Send (make_email "robot@example.org" (Some "ana@example.org")
               "Test s pandas izvještajem" (plain_text "Ana")
               (Some (html_text "Ana" EmptyString)) (Some [("report.csv", EmptyString)]));
       Print "✅ Sent to ana@example.org";
       Send (make_email "robot@example.org" (Some "ivo@example.org")
               "Test s pandas izvještajem" (plain_text "pozdrav")
               (Some (html_text "pozdrav" EmptyString)) (Some [("report.csv", EmptyString)]));
       Print "✅ Sent to ivo@example.org" ],
     None).
Proof. vm_compute; reflexivity. Qed.

(** A message that cannot be built ends the run where it stands. *)
Example send_all_missing_name :
  let cfg := cfg_literal env_four_set 587 in
  prints (snd (fst (send_all quiet_api cfg EmptyString EmptyString
                      [ (Some "ana@example.org", Some "Ana");
                        (Some "ivo@example.org", None);
                        (Some "eva@example.org", Some "Eva") ] tt)))
  = [ "✅ Sent to ana@example.org" ]
  /\ snd (send_all quiet_api cfg EmptyString EmptyString
            [ (Some "ana@example.org", Some "Ana");
              (Some "ivo@example.org", None);
              (Some "eva@example.org", Some "Eva") ] tt)
     = Some (MissingCell "name").
Proof. split; vm_compute; reflexivity. Qed.

(** ** The statements at sample inputs *)

Lemma load_recipients_filtered_witness :
  src_rows source_sample
  = [ {| src_email := Some " A@x.com"; src_name := Some "A"; src_active := VBool false |} ]
    ++ {| src_email := Some "a@X.com "; src_name := None; src_active := VBool true |}
    :: [ {| src_email := Some "nobody"; src_name := Some "N"; src_active := VBool true |};
         {| src_email := None; src_name := Some "M"; src_active := VBool true |};
         {| src_email := Some "a@x.com"; src_name := Some "C"; src_active := VBool true |} ]
  /\ In (Some "a@x.com", Some "") (load_recipients ascii_lower (Some source_sample)).
Proof.
  split; [reflexivity|].
  destruct (load_recipients_filtered ascii_lower source_sample) as (_ & _ & _ & _ & Hkeep).
  apply (Hkeep
           [ {| src_email := Some " A@x.com"; src_name := Some "A"; src_active := VBool false |} ]
           {| src_email := Some "a@X.com "; src_name := None; src_active := VBool true |}
           _ eq_refl eq_refl).
  intros r' [<-|[]] Hel; discriminate Hel.
Defined.

Lemma load_recipients_active_witness :
  has_active source_active_one = true
  /\ inferred (map src_active (src_rows source_active_one)) = true
  /\ In (Some "a@x.com", Some "A") (load_recipients ascii_lower (Some source_active_one))
  /\ exists r,
      In r (src_rows source_active_one)
      /\ view ascii_lower source_active_one r = (Some "a@x.com", Some "A")
      /\ eq_True (src_active r) = true.
Proof.
  split; [reflexivity|].
  split; [reflexivity|].
  split; [left; reflexivity|].
  destruct (proj1 (load_recipients_active ascii_lower source_active_one) eq_refl
              (Some "a@x.com") (Some "A") (or_introl eq_refl))
    as (r & Hin & Hv & Ht & _).
  exists r; auto.
Defined.


(** ** A run of the script *)

Section RunFacts.

Variable int_beyond : string -> option Z.
Variable lower : string -> string.
Variable to_csv : frame -> string.
Variable to_html : frame -> string.
Context {World : Type}.
Variable api : smtp World.

Lemma load_recipients_named (file : option source) :
  Forall named (load_recipients lower file).
Proof.
  destruct file as [df|]; [|constructor].
  apply Forall_forall; intros [e n] Hin.
  destruct (load_recipients_origin lower df e n Hin) as (_ & r & _ & _ & Hv & _).
  unfold view in Hv; injection Hv as _ <-.
  rewrite name_cell_spec; unfold named; cbn [snd].
  destruct (has_name df), (src_name r); eauto.
Qed.

Lemma recipients_of_named (cfg : config) (loaded : list (cell * cell)) :
  Forall named loaded -> Forall named (recipients_of cfg loaded).
Proof.
  intros H; destruct loaded; [|exact H].
  repeat constructor; exists "Primatelj"; reflexivity.
Qed.

(** Once the configuration is loaded the run goes through all its
    recipients: every name of the recipient frame is a string, so no message
    fails to be built. *)
Lemma main_completes (env : environ) (cfg : config) (file : option source) (w : World) :
  load_env int_beyond env = inr cfg ->
  exists w' events report,
    build_report = inr report
    /\ main int_beyond lower to_csv to_html api env file w = (w', events, None)
    /\ Forall2 (fun row m =>
                  build_message cfg (to_csv report) (to_html (head 10 report)) row = inr m)
               (recipients_of cfg (load_recipients lower file)) (sends events).
Proof.
  intros Hcfg; unfold main; rewrite Hcfg.
  destruct build_report as [e|report] eqn:Hreport; [discriminate Hreport|].
  destruct (send_all_named api cfg (dataframe_to_csv_bytes to_csv report)
              (to_html (head 10 report))
              (recipients_of cfg (load_recipients lower file)) w
              (recipients_of_named cfg _ (load_recipients_named file)))
    as (w' & events & Hrun & Hs & _).
  exists w', events, report; auto.
Qed.

End RunFacts.

(** * Further properties *)

(** ** load_env: the configurations it returns *)

Lemma none_or_empty_false (v : cfgval) :
  none_or_empty v = false ->
  (exists s, v = CStr s /\ s <> "") \/ (exists z, v = CInt z).
Proof.
  destruct v as [|s|z]; unfold none_or_empty; intros H.
  - discriminate H.
  - left; exists s; split; [reflexivity | apply String.eqb_neq; exact H].
  - right; exists z; reflexivity.
Qed.

Lemma getenv_CStr (env : environ) (k s : string) :
  getenv env k = CStr s <-> env k = Some s.
Proof.
  unfold getenv; destruct (env k); split; intros H;
    try discriminate; injection H as ->; reflexivity.
Qed.

Lemma getenv_not_CInt (env : environ) (k : string) (z : Z) : getenv env k <> CInt z.
Proof. unfold getenv; destruct (env k); discriminate. Qed.

Lemma load_env_fields (int_beyond : string -> option Z) (env : environ) (cfg : config) :
  load_env int_beyond env = inr cfg ->
  exists port host user password sender fallback,
    Py.int int_beyond (getenv_default env "SMTP_PORT" "587") = Some port
    /\ getenv_default env "SMTP_HOST" "smtp.gmail.com" = host /\ host <> ""
    /\ env "SMTP_USER" = Some user /\ user <> ""
    /\ env "SMTP_PASS" = Some password /\ password <> ""
    /\ env "FROM_EMAIL" = Some sender /\ sender <> ""
    /\ env "FALLBACK_TO" = Some fallback /\ fallback <> ""
    /\ cfg = [ ("host", CStr host); ("port", CInt port); ("user", CStr user);
               ("password", CStr password); ("from_email", CStr sender);
               ("fallback_to", CStr fallback) ].
Proof.
  intros H; destruct (load_env_inr int_beyond env cfg H) as (port & Hport & -> & Hm).
  unfold missing, cfg_literal in Hm; cbn in Hm.
  destruct (none_or_empty (CStr (getenv_default env "SMTP_HOST" "smtp.gmail.com")))
    eqn:Hh; [discriminate Hm|].
  destruct (none_or_empty (getenv env "SMTP_USER")) eqn:Hu; [discriminate Hm|].
  destruct (none_or_empty (getenv env "SMTP_PASS")) eqn:Hp; [discriminate Hm|].
  destruct (none_or_empty (getenv env "FROM_EMAIL")) eqn:Hf; [discriminate Hm|].
  destruct (none_or_empty (getenv env "FALLBACK_TO")) eqn:Ht; [discriminate Hm|].
  destruct (none_or_empty_false _ Hh) as [(h & Hh1 & Hh2)|[z Hz]]; [|discriminate Hz].
  destruct (none_or_empty_false _ Hu) as [(u & Hu1 & Hu2)|[z Hz]];
    [|exfalso; exact (getenv_not_CInt _ _ _ Hz)].
  destruct (none_or_empty_false _ Hp) as [(p & Hp1 & Hp2)|[z Hz]];
    [|exfalso; exact (getenv_not_CInt _ _ _ Hz)].
  destruct (none_or_empty_false _ Hf) as [(f & Hf1 & Hf2)|[z Hz]];
    [|exfalso; exact (getenv_not_CInt _ _ _ Hz)].
  destruct (none_or_empty_false _ Ht) as [(t & Ht1 & Ht2)|[z Hz]];
    [|exfalso; exact (getenv_not_CInt _ _ _ Hz)].
  injection Hh1 as Hh1.
  exists port, h, u, p, f, t.
  unfold cfg_literal; rewrite Hu1, Hp1, Hf1, Ht1, Hh1.
  apply getenv_CStr in Hu1, Hp1, Hf1, Ht1.
  repeat split; assumption.
Qed.

(** X1.  [load_env] returns a configuration exactly when [int] accepts the
    port text, the host (the variable or its default) is not empty and the
    four other variables are set and not empty; the configuration then holds
    these values, under the six keys in the order of the dictionary.  No
    range is imposed on the port. *)
Theorem load_env_succeeds_iff (int_beyond : string -> option Z) (env : environ)
    (cfg : config) :
  load_env int_beyond env = inr cfg <->
  exists port host user password sender fallback,
    Py.int int_beyond (getenv_default env "SMTP_PORT" "587") = Some port
    /\ getenv_default env "SMTP_HOST" "smtp.gmail.com" = host /\ host <> ""
    /\ env "SMTP_USER" = Some user /\ user <> ""
    /\ env "SMTP_PASS" = Some password /\ password <> ""
    /\ env "FROM_EMAIL" = Some sender /\ sender <> ""
    /\ env "FALLBACK_TO" = Some fallback /\ fallback <> ""
    /\ cfg = [ ("host", CStr host); ("port", CInt port); ("user", CStr user);
               ("password", CStr password); ("from_email", CStr sender);
               ("fallback_to", CStr fallback) ].
Proof.
  split; [apply load_env_fields|].
  intros (port & h & u & p & f & t & Hport & Hh & Hh' & Hu & Hu' & Hp & Hp'
          & Hf & Hf' & Ht & Ht' & ->).
  rewrite (load_env_parsed int_beyond env port Hport).
  unfold missing, cfg_literal, getenv; rewrite Hh, Hu, Hp, Hf, Ht; cbn.
  rewrite !none_or_empty_CStr by assumption; reflexivity.
Qed.

(** ** load_recipients: when nothing, and when everything, is returned *)

Section RecipientsMore.

Variable lower : string -> string.

Lemma filter_nil_iff {A : Type} (f : A -> bool) (l : list A) :
  filter f l = [] <-> forall x, In x l -> f x = false.
Proof.
  induction l as [|x l IH]; simpl.
  - split; [intros _ y [] | reflexivity].
  - destruct (f x) eqn:Hx; split.
    + discriminate.
    + intros H; rewrite (H x (or_introl eq_refl)) in Hx; discriminate Hx.
    + intros H y [<-|Hy]; [exact Hx | apply IH; assumption].
    + intros H; apply IH; intros y Hy; apply H; right; exact Hy.
Qed.

Lemma filter_all {A : Type} (f : A -> bool) (l : list A) :
  (forall x, In x l -> f x = true) -> filter f l = l.
Proof.
  induction l as [|x l IH]; intros H; simpl; [reflexivity|].
  rewrite (H x (or_introl eq_refl)), IH; [reflexivity|].
  intros y Hy; apply H; right; exact Hy.
Qed.

Lemma keep_first_nil (rows : list source_row) :
  keep_first lower [] rows = [] <-> rows = [].
Proof.
  destruct rows as [|r rows]; simpl; split; intros H;
    try reflexivity; discriminate H.
Qed.

Lemma keep_first_distinct (seen : list cell) (rows : list source_row) :
  NoDup (map (key lower) rows) ->
  (forall r, In r rows -> ~ In (key lower r) seen) ->
  keep_first lower seen rows = rows.
Proof.
  revert seen; induction rows as [|r rows IH]; intros seen Hnd Hseen; [reflexivity|].
  simpl in Hnd; inversion Hnd as [|k ks Hr Hnd']; subst.
  simpl.
  destruct (existsb (cell_eqb (key lower r)) seen) eqn:Hex.
  - apply seen_In in Hex; exfalso; exact (Hseen r (or_introl eq_refl) Hex).
  - f_equal; apply IH; [exact Hnd'|].
    intros r' Hr' [Heq|Hin].
    + apply Hr; rewrite Heq; apply in_map; exact Hr'.
    + exact (Hseen r' (or_intror Hr') Hin).
Qed.

(** The frame returned is empty exactly when there is no file or no row of
    the file passes the active and "@" filters. *)
Lemma load_recipients_nil (file : option source) :
  load_recipients lower file = [] <->
  match file with
  | None => True
  | Some df => forall r, In r (src_rows df) -> eligible lower df r = false
  end.
Proof.
  destruct file as [df|]; [|split; reflexivity].
  rewrite load_recipients_rows, <- filter_nil_iff, <- keep_first_nil.
  split; [apply map_eq_nil | intros ->; reflexivity].
Qed.

(** X3.  A file in which every row passes the filters and no two rows have the
    same normalised email is returned whole, row for row. *)
Theorem load_recipients_whole (df : source) :
  (forall r, In r (src_rows df) -> eligible lower df r = true) ->
  NoDup (map (key lower) (src_rows df)) ->
  load_recipients lower (Some df) = map (view lower df) (src_rows df).
Proof.
  intros Hel Hnd.
  rewrite load_recipients_rows, filter_all by exact Hel.
  rewrite keep_first_distinct; [reflexivity | exact Hnd | intros r _ []].
Qed.

End RecipientsMore.

Lemma load_recipients_whole_witness :
  (forall r, In r (src_rows source_clean) -> eligible ascii_lower source_clean r = true)
  /\ NoDup (map (key ascii_lower) (src_rows source_clean))
  /\ load_recipients ascii_lower (Some source_clean)
     = [(Some "ana@example.org", Some ""); (Some "ivo@example.org", Some "")].
Proof.
  assert (Hel : forall r, In r (src_rows source_clean) ->
                          eligible ascii_lower source_clean r = true).
  { intros r [<-|[<-|[]]]; reflexivity. }
  assert (Hnd : NoDup (map (key ascii_lower) (src_rows source_clean))).
  { repeat constructor; simpl; intros H; repeat destruct H as [H|H]; try discriminate H;
      exact H. }
  split; [exact Hel|].
  split; [exact Hnd|].
  exact (load_recipients_whole ascii_lower source_clean Hel Hnd).
Defined.

(** ** build_report: the groups share out the records *)

Lemma sorted_NoDup (l : list string) :
  Sorted.StronglySorted String_as_OT.lt l -> NoDup l.
Proof.
  induction 1 as [|x l Hs IH Hall]; constructor; [|exact IH].
  intros Hin; rewrite Forall_forall in Hall.
  exact (StrictOrder_Irreflexive x (Hall x Hin)).
Qed.

Lemma sorted_same_elements (l1 l2 : list string) :
  Sorted.StronglySorted String_as_OT.lt l1 ->
  Sorted.StronglySorted String_as_OT.lt l2 ->
  (forall k, In k l1 <-> In k l2) ->
  l1 = l2.
Proof.
  intros H1; revert l2; induction H1 as [|x l1 Hs1 IH Hall1]; intros l2 H2 Hsame.
  - destruct l2 as [|y l2]; [reflexivity|].
    exfalso; exact (proj2 (Hsame y) (or_introl eq_refl)).
  - destruct H2 as [|y l2 Hs2 Hall2].
    + exfalso; exact (proj1 (Hsame x) (or_introl eq_refl)).
    + rewrite Forall_forall in Hall1, Hall2.
      assert (Hxy : x = y).
      { destruct (proj1 (Hsame x) (or_introl eq_refl)) as [Hy|Hx]; [symmetry; exact Hy|].
        destruct (proj2 (Hsame y) (or_introl eq_refl)) as [Hx'|Hy]; [exact Hx'|].
        exfalso; apply (StrictOrder_Irreflexive x).
        transitivity y; [apply Hall1; exact Hy | apply Hall2; exact Hx]. }
      subst y; f_equal; apply IH; [exact Hs2|].
      intros k; split; intros Hk.
      * destruct (proj1 (Hsame k) (or_intror Hk)) as [<-|Hk']; [|exact Hk'].
        exfalso; exact (StrictOrder_Irreflexive x (Hall1 x Hk)).
      * destruct (proj2 (Hsame k) (or_intror Hk)) as [<-|Hk']; [|exact Hk'].
        exfalso; exact (StrictOrder_Irreflexive x (Hall2 x Hk)).
Qed.

Lemma sum_keys_add (f g : string -> Z) (keys : list string) :
  sum_keys (fun k => (f k + g k)%Z) keys = (sum_keys f keys + sum_keys g keys)%Z.
Proof. induction keys as [|k keys IH]; simpl; [reflexivity | rewrite IH; lia]. Qed.

Lemma sum_keys_ext (f g : string -> Z) (keys : list string) :
  (forall k, f k = g k) -> sum_keys f keys = sum_keys g keys.
Proof. intros H; induction keys as [|k keys IH]; simpl; [reflexivity | rewrite H, IH; reflexivity]. Qed.

Lemma sum_keys_zero (keys : list string) : sum_keys (fun _ => 0%Z) keys = 0%Z.
Proof. induction keys as [|k keys IH]; simpl; [reflexivity | exact IH]. Qed.

Lemma sum_keys_no_key (s : string) (c : Z) (keys : list string) :
  ~ In s keys ->
  sum_keys (fun k => if (s =? k)%string then c else 0%Z) keys = 0%Z.
Proof.
  induction keys as [|k keys IH]; intros Hno; simpl; [reflexivity|].
  destruct (String.eqb_spec s k) as [->|Hne].
  - contradiction Hno; left; reflexivity.
  - apply IH; intros Hin; apply Hno; right; exact Hin.
Qed.

Lemma sum_keys_one_key (s : string) (c : Z) (keys : list string) :
  NoDup keys -> In s keys ->
  sum_keys (fun k => if (s =? k)%string then c else 0%Z) keys = c.
Proof.
  induction 1 as [|k keys Hk Hnd IH]; intros Hin; [contradiction|].
  simpl; destruct (String.eqb_spec s k) as [->|Hne].
  - rewrite sum_keys_no_key by exact Hk; lia.
  - destruct Hin as [Heq|Hin]; [contradiction Hne; symmetry; exact Heq|].
    rewrite IH by exact Hin; reflexivity.
Qed.

(** Summing over the groups is summing over the records. *)
Lemma sum_by_groups (w : item -> Z) (keys : list string) (rs : list item) :
  NoDup keys ->
  (forall r, In r rs -> In (status r) keys) ->
  sum_keys (fun k => sum_by w (with_status k rs)) keys = sum_by w rs.
Proof.
  intros Hnd; induction rs as [|r rs IH]; intros Hin.
  - apply sum_keys_zero.
  - rewrite (sum_keys_ext _
               (fun k => ((if (status r =? k)%string then w r else 0)
                          + sum_by w (with_status k rs))%Z)).
    + rewrite sum_keys_add, sum_keys_one_key;
        [| exact Hnd | apply Hin; left; reflexivity].
      simpl; rewrite IH; [reflexivity | intros r' Hr'; apply Hin; right; exact Hr'].
    + intros k; unfold with_status; simpl.
      destruct (status r =? k)%string; reflexivity.
Qed.

Lemma sum_by_one (rs : list item) : sum_by (fun _ => 1%Z) rs = Z.of_nat (length rs).
Proof.
  induction rs as [|r rs IH]; [reflexivity|].
  change (sum_by (fun _ => 1%Z) (r :: rs)) with (1 + sum_by (fun _ => 1%Z) rs)%Z.
  rewrite IH; cbn [length]; lia.
Qed.

Lemma summaries_rows (rs : list item) (keys : list string) :
  filter (fun row => is_text "summary" (at_col 0 row))
         (map (summary_row rs) keys ++ map detail_row rs)
  = map (summary_row rs) keys.
Proof.
  rewrite filter_app.
  assert (H1 : forall l, filter (fun row => is_text "summary" (at_col 0 row))
                                (map (summary_row rs) l) = map (summary_row rs) l).
  { induction l as [|k l IH]; simpl; [reflexivity | rewrite IH; reflexivity]. }
  assert (H2 : forall l, filter (fun row => is_text "summary" (at_col 0 row))
                                (map detail_row l) = []).
  { induction l as [|r l IH]; simpl; [reflexivity | exact IH]. }
  rewrite H1, H2, app_nil_r; reflexivity.
Qed.

Lemma whole_sum_summary_col2 (rs : list item) (keys : list string) :
  exact (Z.of_nat (length rs)) ->
  whole_sum (map (at_col 2) (map (summary_row rs) keys))
  = sum_keys (fun k => sum_by (fun _ => 1%Z) (with_status k rs)) keys.
Proof.
  intros Hn; unfold whole_sum, sum_keys.
  induction keys as [|k keys IH]; [reflexivity|].
  cbn [map fold_right]; rewrite IH, sum_by_one.
  change (at_col 2 (summary_row rs k)) with (num (Z.of_nat (length (with_status k rs)))).
  rewrite whole_num, float_of_int_exact; [reflexivity|].
  pose proof (with_status_length k rs); unfold exact in *; lia.
Qed.

Lemma whole_sum_summary_col3 (rs : list item) (keys : list string) :
  (forall k, exact (total_qty (with_status k rs))) ->
  whole_sum (map (at_col 3) (map (summary_row rs) keys))
  = sum_keys (fun k => sum_by qty (with_status k rs)) keys.
Proof.
  intros Hs; unfold whole_sum, sum_keys.
  induction keys as [|k keys IH]; [reflexivity|].
  cbn [map fold_right]; rewrite IH.
  change (at_col 3 (summary_row rs k))
    with (num (wrap64 (total_qty (with_status k rs)))).
  rewrite whole_num, (wrap64_int64 _ (exact_int64 _ (Hs k))),
          (float_of_int_exact _ (Hs k)).
  reflexivity.
Qed.

(** The shape of a report that was built. *)
Lemma build_report_of_inr (rs : list item) (t : frame) :
  build_report_of rs = inr t ->
  rs <> []
  /\ t = {| columns := report_columns;
            data := map (summary_row rs) (group_keys (map (fun r => VStr (status r)) rs))
                    ++ map detail_row rs |}.
Proof.
  destruct rs as [|r rs]; [discriminate|].
  rewrite build_report_of_cons; intros H; injection H as <-.
  split; [discriminate | reflexivity].
Qed.

(** X6.  In a report built from fewer than 2^53 records whose quantities
    and whose sums of quantities per status are below 2^53 in absolute
    value, the total_skus of the summary rows add up to the number of
    records and their total_qty to the sum of all quantities: every record
    is counted in exactly one group.  The report has one row per group and
    one per record. *)
Theorem build_report_totals (rs : list item) (t : frame) :
  exact (Z.of_nat (length rs)) ->
  Forall (fun r => exact (qty r)) rs ->
  (forall k, exact (total_qty (with_status k rs))) ->
  build_report_of rs = inr t ->
  whole_sum (map (at_col 2) (summaries t)) = Z.of_nat (length rs)
  /\ whole_sum (map (at_col 3) (summaries t)) = total_qty rs
  /\ length (data t) = length (summaries t) + length rs.
Proof.
  intros Hn _ Hs H; destruct (build_report_of_inr rs t H) as [_ ->].
  unfold summaries; cbn [data]; rewrite summaries_rows.
  set (keys := group_keys (map (fun r => VStr (status r)) rs)).
  assert (Hnd : NoDup keys) by apply sorted_NoDup, group_keys_sorted.
  assert (Hin : forall r, In r rs -> In (status r) keys).
  { intros r Hr; apply group_keys_In.
    apply (in_map (fun r => VStr (status r))); exact Hr. }
  rewrite whole_sum_summary_col2, whole_sum_summary_col3, !sum_by_groups by assumption.
  rewrite sum_by_one, length_app, !length_map.
  repeat split.
Qed.

Lemma build_report_totals_witness :
  exact (Z.of_nat (length sample_data))
  /\ Forall (fun r => exact (qty r)) sample_data
  /\ (forall k, exact (total_qty (with_status k sample_data)))
  /\ build_report_of sample_data = build_report
  /\ exists t, build_report = inr t
               /\ whole_sum (map (at_col 2) (summaries t)) = 3%Z
               /\ whole_sum (map (at_col 3) (summaries t)) = 14%Z
               /\ length (data t) = length (summaries t) + 3.
Proof.
  assert (Hn : exact (Z.of_nat (length sample_data))) by reflexivity.
  assert (Hq : Forall (fun r => exact (qty r)) sample_data)
    by (repeat constructor).
  assert (Hs : forall k, exact (total_qty (with_status k sample_data))).
  { intros k; unfold with_status, sample_data; cbn [filter status].
    destruct ("in_stock" =? k)%string, ("low_stock" =? k)%string,
             ("out_of_stock" =? k)%string; reflexivity. }
  split; [exact Hn|].
  split; [exact Hq|].
  split; [exact Hs|].
  split; [reflexivity|].
  eexists; split; [reflexivity|].
  exact (build_report_totals sample_data _ Hn Hq Hs eq_refl).
Defined.

Lemma sum_by_filter_perm (w : item -> Z) (f : item -> bool) (rs rs' : list item) :
  Permutation rs rs' -> sum_by w (filter f rs) = sum_by w (filter f rs').
Proof.
  induction 1 as [|x l l' Hp IH|x y l|l l' l'' Hp1 IH1 Hp2 IH2]; simpl.
  - reflexivity.
  - destruct (f x); simpl; rewrite IH; reflexivity.
  - destruct (f x), (f y); simpl; lia.
  - rewrite IH1; exact IH2.
Qed.

Lemma summary_row_perm (rs rs' : list item) (k : string) :
  Permutation rs rs' -> summary_row rs k = summary_row rs' k.
Proof.
  intros Hp; unfold summary_row.
  assert (Hlen : Z.of_nat (length (with_status k rs)) = Z.of_nat (length (with_status k rs'))).
  { rewrite <- !sum_by_one; apply sum_by_filter_perm; exact Hp. }
  assert (Hqty : total_qty (with_status k rs) = total_qty (with_status k rs')).
  { apply (sum_by_filter_perm qty); exact Hp. }
  rewrite Hlen, Hqty; reflexivity.
Qed.

(** X7.  The summary rows of a report do not depend on the order in which the
    records come: two sequences with the same records give the same summary
    rows, in the same order. *)
Theorem build_report_order (rs rs' : list item) (t t' : frame) :
  Permutation rs rs' ->
  build_report_of rs = inr t ->
  build_report_of rs' = inr t' ->
  summaries t = summaries t' /\ columns t = columns t'.
Proof.
  intros Hp Ht Ht'.
  destruct (build_report_of_inr rs t Ht) as [_ ->].
  destruct (build_report_of_inr rs' t' Ht') as [_ ->].
  split; [|reflexivity].
  unfold summaries; cbn [data]; rewrite !summaries_rows.
  assert (Hkeys : group_keys (map (fun r => VStr (status r)) rs)
                  = group_keys (map (fun r => VStr (status r)) rs')).
  { apply sorted_same_elements; try apply group_keys_sorted.
    intros k; rewrite !group_keys_In; split; apply Permutation_in.
    - apply Permutation_map; exact Hp.
    - apply Permutation_map, Permutation_sym; exact Hp. }
  rewrite Hkeys; apply map_ext; intros k; apply summary_row_perm; exact Hp.
Qed.

Lemma build_report_order_witness :
  Permutation sample_data (rev sample_data)
  /\ exists t t',
      build_report_of sample_data = inr t
      /\ build_report_of (rev sample_data) = inr t'
      /\ summaries t = summaries t' /\ columns t = columns t'.
Proof.
  assert (Hp : Permutation sample_data (rev sample_data)) by apply Permutation_rev.
  split; [exact Hp|].
  do 2 eexists; split; [reflexivity|]; split; [reflexivity|].
  exact (build_report_order sample_data (rev sample_data) _ _ Hp eq_refl eq_refl).
Defined.

(** ** make_email: every part can be read back *)

Lemma decoded_attachment_part (a : string * string) :
  decoded (attachment_part a) = Some (snd a)
  /\ disposition (attachment_part a)
     = Some ("attachment; filename=" ++ dquote ++ fst a ++ dquote)%string.
Proof. destruct a as [filename content]; split; [apply a2b_base64_encodebytes | reflexivity]. Qed.

Lemma attachments_of_map (subtype : string) (headers : list (string * cell))
    (alt : message) (l : list (string * string)) :
  (match alt with Base _ _ _ _ => false | _ => true end) = true ->
  attachments_of (Multipart subtype headers (alt :: map attachment_part l))
  = map attachment_part l.
Proof.
  intros Halt; cbn [attachments_of filter].
  destruct alt; try discriminate Halt.
  - induction l as [|[f c] l IH]; simpl; [reflexivity | rewrite IH; reflexivity].
  - induction l as [|[f c] l IH]; simpl; [reflexivity | rewrite IH; reflexivity].
Qed.

(** X9.  For any arguments, the message has one attachment part per (file name,
    content) pair, in order; each decodes to its content and announces its
    file name.  Without attachments ([None] or the empty list) it has none.
    The alternative container holds the plain body, and the HTML body after
    it unless that is [None] or the empty string; both decode to the text
    given.  The headers are From, To and Subject, in this order. *)
Theorem make_email_parts (from_email : string) (to_email : cell)
    (subject plain_body : string) (html_body : option string)
    (attachments : option (list (string * string))) :
  let m := make_email from_email to_email subject plain_body html_body attachments in
  let l := match attachments with Some l => l | None => [] end in
  map decoded (attachments_of m) = map (fun a => Some (snd a)) l
  /\ map disposition (attachments_of m)
     = map (fun a => Some ("attachment; filename=" ++ dquote ++ fst a ++ dquote)%string) l
  /\ map decoded (alternatives m)
     = Some plain_body ::
       match html_body with
       | Some h => if (h =? "")%string then [] else [Some h]
       | None => []
       end
  /\ exists parts,
      m = Multipart "mixed"
            [("From", Some from_email); ("To", to_email); ("Subject", Some subject)]
            parts
      /\ length parts = 1 + length l.
Proof.
  intros m l; unfold m, make_email; fold l.
  rewrite attachments_of_map by reflexivity.
  rewrite !map_map.
  split; [apply map_ext; intros a; apply decoded_attachment_part|].
  split; [apply map_ext; intros a; apply decoded_attachment_part|].
  split.
  - cbn [alternatives map decoded MIMEText].
    rewrite a2b_base64_encodebytes; f_equal.
    destruct html_body as [h|]; [|reflexivity].
    unfold Py.truthy; destruct (h =? "")%string; cbn [negb map]; [reflexivity|].
    cbn [decoded MIMEText]; rewrite a2b_base64_encodebytes; reflexivity.
  - eexists; split; [reflexivity|].
    cbn [length]; rewrite length_map; reflexivity.
Qed.

(** ** send_email: the calls it makes *)

Ltac in_pick := solve [cbn [In]; repeat (first [left; reflexivity | right])].

Ltac in_cases H :=
  solve [cbn [In] in H; repeat (destruct H as [H|H]; try discriminate H); contradiction].

Ltac calls_case n q :=
  cbn [fst snd app];
  split; [reflexivity|];
  split;
    [ exists n, q; cbn [map fst snd firstn app Nat.sub nth];
      split; [reflexivity|];
      split; [lia|];
      split; [repeat constructor|];
      split; [intros Hlt; first [discriminate | lia]|];
      split;
        [ split;
            [ intros Hq; first [discriminate Hq | in_pick]
            | intros Hin; first [reflexivity | in_cases Hin] ]
        | reflexivity ]
    |];
  split; [intros u p b Hin; first [in_pick | in_cases Hin]|];
  split; [intros m' b Hin; first [split; in_pick | in_cases Hin]|];
  split; intros H; first [discriminate H | reflexivity].

(** X11.  Whatever the SMTP world does, the calls of [send_email] are a run of
    context, connect, STARTTLS, login, send that goes on as long as the
    calls return and stops at the first one that raises, followed by QUIT
    exactly when the connection was opened.  So the host and port, the
    credentials and the message are those given; the credentials are only
    handed over after STARTTLS returned, and the message only after the
    login returned.  The exception of [send_email] is the one of QUIT when
    QUIT raised, and otherwise the one of the call at which the run stopped;
    no exception comes back exactly when the six calls were made and
    returned.  Keeping the list of calls changes neither the result nor the
    world. *)
Theorem send_email_calls {World : Type} (api : smtp World) (cfg : config)
    (m : message) (w : World) :
  let host := cfg_str cfg "host" in
  let port := cfg_port cfg in
  let user := cfg_str cfg "user" in
  let password := cfg_str cfg "password" in
  let '((w', log), r) := send_email (traced api) cfg m (w, @nil logline) in
  send_email api cfg m w = (w', r)
  /\ (exists (n : nat) (q : bool),
        map fst log
        = firstn n [CallContext; CallConnect host port; CallStarttls;
                    CallLogin user password; CallSend m]
          ++ (if q then [CallQuit] else [])
        /\ 1 <= n <= 5
        /\ Forall returned (firstn (n - 1) log)
        /\ (n < 5 -> snd (nth (n - 1) log (CallQuit, None)) <> None)
        /\ (q = true <-> In (CallConnect host port, None) log)
        /\ r = if q
               then match snd (nth n log (CallQuit, None)) with
                    | Some e => Some e
                    | None => snd (nth (n - 1) log (CallQuit, None))
                    end
               else snd (nth (n - 1) log (CallQuit, None)))
  /\ (forall u p b, In (CallLogin u p, b) log -> In (CallStarttls, None) log)
  /\ (forall m' b, In (CallSend m', b) log ->
        In (CallStarttls, None) log /\ In (CallLogin user password, None) log)
  /\ (r = None <->
      log = [ (CallContext, None); (CallConnect host port, None); (CallStarttls, None);
              (CallLogin user password, None); (CallSend m, None); (CallQuit, None) ]).
Proof.
  intros host port user password.
  unfold send_email, traced, logged, and_then;
    cbn [create_default_context connect starttls login send_message quit fst snd app].
  fold host port user password.
  destruct (create_default_context api w) as [w1 [e1|]]; [calls_case 1%nat false|].
  cbn [fst snd app].
  destruct (connect api host port w1) as [w2 [e2|]]; [calls_case 2%nat false|].
  cbn [fst snd app].
  destruct (starttls api w2) as [w3 [e3|]]; cbn [fst snd app];
    [destruct (quit api w3) as [w4 [e4|]]; calls_case 3%nat true|].
  destruct (login api user password w3) as [w4 [e4|]]; cbn [fst snd app];
    [destruct (quit api w4) as [w5 [e5|]]; calls_case 4%nat true|].
  destruct (send_message api m w4) as [w5 [e5|]]; cbn [fst snd app];
    destruct (quit api w5) as [w6 [e6|]]; calls_case 5%nat true.
Qed.

(** ** main: what a run sends *)


Lemma load_recipients_NoDup (lower : string -> string) (file : option source) :
  NoDup (map fst (load_recipients lower file)).
Proof.
  destruct file as [df|]; [|constructor].
  rewrite load_recipients_rows, map_map; simpl; apply keep_first_NoDup.
Qed.



Section RunMore.

Variable int_beyond : string -> option Z.
Variable lower : string -> string.
Variable to_csv : frame -> string.
Variable to_html : frame -> string.
Context {World : Type}.
Variable api : smtp World.

(** X2.  The recipient file is absent, or a table with an "email" column.
    The frame returned is empty exactly when there is no file or no row of
    the file passes the active and "@" filters.  Once the configuration is
    loaded, the run is then the loop over the single row made of the value
    of FALLBACK_TO and the name "Primatelj", and otherwise the loop over the
    rows loaded, unchanged. *)
Theorem load_recipients_empty_iff (env : environ) (cfg : config) (file : option source)
    (w : World) :
  load_env int_beyond env = inr cfg ->
  (load_recipients lower file = [] <->
   match file with
   | None => True
   | Some df => forall r, In r (src_rows df) -> eligible lower df r = false
   end)
  /\ exists report t,
      build_report = inr report
      /\ env "FALLBACK_TO" = Some t
      /\ main int_beyond lower to_csv to_html api env file w
         = send_all api cfg (to_csv report) (to_html (head 10 report))
                    match load_recipients lower file with
                    | [] => [(Some t, Some "Primatelj")]
                    | _ :: _ => load_recipients lower file
                    end w.
Proof.
  intros Hcfg; split; [apply load_recipients_nil|].
  destruct (load_env_fallback int_beyond env cfg Hcfg) as (t & Ht & _ & Hstr).
  destruct build_report as [e|report] eqn:Hreport; [discriminate Hreport|].
  exists report, t; split; [reflexivity|].
  split; [exact Ht|].
  unfold main; rewrite Hcfg, Hreport; unfold recipients_of, dataframe_to_csv_bytes.
  rewrite Hstr; reflexivity.
Qed.


End RunMore.

Lemma load_recipients_empty_iff_witness :
  let cfg := [ ("host", CStr "mail.example.org"); ("port", CInt 2525);
               ("user", CStr "robot"); ("password", CStr "secret");
               ("from_email", CStr "robot@example.org");
               ("fallback_to", CStr "ops@example.org") ] in
  load_env int_ascii_only env_run = inr cfg
  /\ load_recipients ascii_lower (Some source_no_address) = []
  /\ exists report,
      build_report = inr report
      /\ main int_ascii_only ascii_lower no_text no_text quiet_api env_run
              (Some source_no_address) tt
         = send_all quiet_api cfg (no_text report) (no_text (head 10 report))
                    [(Some "ops@example.org", Some "Primatelj")] tt.
Proof.
  intros cfg.
  split; [reflexivity|].
  split; [reflexivity|].
  destruct (load_recipients_empty_iff int_ascii_only ascii_lower no_text no_text quiet_api
              env_run cfg (Some source_no_address) tt eq_refl)
    as (_ & report & t & Hreport & Ht & Hmain).
  exists report; split; [exact Hreport|].
  injection Ht as <-; exact Hmain.
Defined.


(** ** load_recipients: no address is lost *)

Section RecipientsCover.

Variable lower : string -> string.

Lemma keep_first_covers (seen : list cell) (rows : list source_row) (r : source_row) :
  In r rows ->
  In (key lower r) seen \/ In (key lower r) (map (key lower) (keep_first lower seen rows)).
Proof.
  revert seen; induction rows as [|x rows IH]; intros seen Hin; [contradiction|].
  simpl; destruct (existsb (cell_eqb (key lower x)) seen) eqn:Hx.
  - destruct Hin as [->|Hin]; [left; apply seen_In; exact Hx | apply IH; exact Hin].
  - destruct Hin as [->|Hin]; [right; left; reflexivity|].
    destruct (IH (key lower x :: seen) Hin) as [[Heq|Hs]|Hk].
    + right; left; exact Heq.
    + left; exact Hs.
    + right; right; exact Hk.
Qed.

(** X4.  The address of every row that passes the active and "@" filters is in
    the result, and there once: dropping duplicates loses rows, not
    addresses. *)
Theorem load_recipients_covers (df : source) (r : source_row) :
  In r (src_rows df) ->
  eligible lower df r = true ->
  In (normalize_cell lower (src_email r)) (map fst (load_recipients lower (Some df)))
  /\ NoDup (map fst (load_recipients lower (Some df))).
Proof.
  intros Hin Hel; split; [|apply load_recipients_NoDup].
  rewrite load_recipients_rows, map_map; simpl.
  destruct (keep_first_covers [] (filter (eligible lower df) (src_rows df)) r) as [[]|H].
  - apply filter_In; split; assumption.
  - exact H.
Qed.

End RecipientsCover.

Lemma load_recipients_covers_witness :
  In {| src_email := Some "a@x.com"; src_name := Some "C"; src_active := VBool true |}
     (src_rows source_sample)
  /\ eligible ascii_lower source_sample
       {| src_email := Some "a@x.com"; src_name := Some "C"; src_active := VBool true |}
     = true
  /\ In (Some "a@x.com") (map fst (load_recipients ascii_lower (Some source_sample))).
Proof.
  assert (Hin : In {| src_email := Some "a@x.com"; src_name := Some "C";
                      src_active := VBool true |} (src_rows source_sample))
    by (simpl; tauto).
  split; [exact Hin|].
  split; [reflexivity|].
  exact (proj1 (load_recipients_covers ascii_lower source_sample _ Hin eq_refl)).
Defined.

(** ** The greeting of a name of white space *)

Lemma drop_space_all (back : bool) (l : list ascii) :
  forallb Py.space1 l = true -> Py.drop_space back l = [].
Proof.
  induction l as [|c l IH]; intros H; [reflexivity|].
  simpl in H; apply andb_true_iff in H; destruct H as [Hc Hl].
  simpl; rewrite Hc; apply IH; exact Hl.
Qed.

(** X13.  The greeting name is never empty, and a name made only of one-byte
    white space (spaces, tabs, line ends) is greeted with "pozdrav", like the
    empty name. *)
Theorem greeting_of_blank (name : string) :
  greeting_of name <> ""
  /\ (forallb Py.space1 (list_ascii_of_string name) = true -> greeting_of name = "pozdrav").
Proof.
  split.
  - unfold greeting_of, Py.truthy.
    destruct (String.eqb_spec (Py.strip name) ""); simpl; [discriminate | assumption].
  - intros H; unfold greeting_of, Py.strip.
    rewrite (drop_space_all false _ H); reflexivity.
Qed.

(** ** make_email: the payloads are plain text *)

Lemma get_beyond (s : string) (n : nat) : String.length s <= n -> String.get n s = None.
Proof.
  revert n; induction s as [|c s IH]; intros n H; [reflexivity|].
  destruct n as [|n]; simpl in H; [lia|].
  simpl; apply IH; lia.
Qed.

Lemma payload_char_b2a (n : N) : payload_char (Base64.b2a n) = true.
Proof.
  destruct (N.lt_ge_cases n 64) as [Hlt|Hge].
  - unfold payload_char; rewrite (proj1 (sextet_char n Hlt)); reflexivity.
  - unfold Base64.b2a; rewrite get_beyond; [reflexivity|].
    change (String.length Base64.alphabet) with 64; lia.
Qed.

Lemma payload_char_encode (bs : list ascii) :
  forallb payload_char (Base64.encode bs) = true.
Proof.
  induction bs as [| a | a b | a b c l IH] using list_ind3.
  - reflexivity.
  - cbn [Base64.encode forallb]; rewrite !payload_char_b2a; reflexivity.
  - cbn [Base64.encode forallb]; rewrite !payload_char_b2a; reflexivity.
  - change (Base64.encode (a :: b :: c :: l)) with (Base64.quad a b c ++ Base64.encode l).
    rewrite forallb_app, IH; unfold Base64.quad; cbn [forallb].
    rewrite !payload_char_b2a; reflexivity.
Qed.

Lemma payload_char_encodebytes (s : string) :
  forallb payload_char (list_ascii_of_string (Base64.encodebytes s)) = true.
Proof.
  unfold Base64.encodebytes; rewrite list_ascii_of_string_of_list_ascii.
  generalize (length (list_ascii_of_string s)) as fuel.
  generalize (list_ascii_of_string s) as bs.
  intros bs fuel; revert bs; induction fuel as [|fuel IH]; intros bs; [reflexivity|].
  destruct bs as [|x bs]; [reflexivity|].
  cbn [Base64.slices flat_map]; unfold Base64.b2a_base64 at 1.
  rewrite !forallb_app, payload_char_encode, IH; reflexivity.
Qed.

(** X10.  Whatever the bodies and the attached bytes are, every payload of the
    message is made of the 64 characters of the base64 alphabet, "=" and
    line ends only, so of seven-bit characters. *)
Theorem make_email_payloads (from_email : string) (to_email : cell)
    (subject plain_body : string) (html_body : option string)
    (attachments : option (list (string * string))) :
  Forall (fun payload =>
            forallb payload_char (list_ascii_of_string payload) = true
            /\ forallb (fun c => nat_of_ascii c <? 128) (list_ascii_of_string payload) = true)
         (payloads (make_email from_email to_email subject plain_body html_body attachments)).
Proof.
  assert (Hseven : forall l, forallb payload_char l = true ->
                             forallb (fun c => nat_of_ascii c <? 128) l = true).
  { intros l H; rewrite forallb_forall in *; intros c Hc.
    specialize (H c Hc); unfold payload_char in H.
    destruct (Base64.a2b c) as [v|] eqn:Ha.
    - clear H; unfold Base64.a2b in Ha.
      assert (Hall : forall s i, Base64.index_from i c s = Some v ->
                                 In c (list_ascii_of_string s)).
      { induction s as [|c' s IHs]; intros i Hi; simpl in Hi; [discriminate|].
        destruct (Ascii.eqb_spec c' c) as [->|_]; [left; reflexivity|].
        right; exact (IHs _ Hi). }
      specialize (Hall _ _ Ha).
      assert (Halpha : forallb (fun c => nat_of_ascii c <? 128)
                               (list_ascii_of_string Base64.alphabet) = true)
        by (vm_compute; reflexivity).
      rewrite forallb_forall in Halpha; exact (Halpha c Hall).
    - apply orb_true_iff in H; destruct H as [H|H];
        apply Ascii.eqb_eq in H; subst c; reflexivity. }
  assert (Hpay : forall s, forallb payload_char (list_ascii_of_string (Base64.encodebytes s)) = true
                           /\ forallb (fun c => nat_of_ascii c <? 128)
                                      (list_ascii_of_string (Base64.encodebytes s)) = true).
  { intros s; split; [|apply Hseven]; apply payload_char_encodebytes. }
  unfold payloads, make_email.
  rewrite attachments_of_map by reflexivity.
  cbn [alternatives]; rewrite map_app, map_map.
  apply Forall_app; split.
  - constructor; [apply Hpay|].
    destruct html_body as [h|]; [|constructor].
    destruct (Py.truthy h); repeat constructor; apply Hpay.
  - apply Forall_forall; intros p Hp; apply in_map_iff in Hp.
    destruct Hp as [[f c] [<- _]]; apply Hpay.
Qed.

(** ** A file without names *)

(** X5.  When the recipient file has no "name" column every recipient gets the
    empty name, and so is greeted with "pozdrav": the plain body of every
    message is the same text. *)
Theorem load_recipients_unnamed (lower : string -> string) (df : source)
    (cfg : config) (report_bytes preview_html : string) :
  has_name df = false ->
  Forall (fun row =>
            snd row = Some ""
            /\ build_message cfg report_bytes preview_html row
               = inr (make_email (cfg_str cfg "from_email") (fst row)
                        "Test s pandas izvještajem" (plain_text "pozdrav")
                        (Some (html_text "pozdrav" preview_html))
                        (Some [("report.csv", report_bytes)])))
         (load_recipients lower (Some df)).
Proof.
  intros Hname; apply Forall_forall; intros [e n] Hin.
  destruct (load_recipients_origin lower df e n Hin) as (_ & r & _ & _ & Hv & _).
  unfold view in Hv; injection Hv as _ <-.
  rewrite name_cell_spec, Hname; split; reflexivity.
Qed.

Lemma load_recipients_unnamed_witness :
  has_name source_clean = false
  /\ Forall (fun row => snd row = Some "")
            (load_recipients ascii_lower (Some source_clean)).
Proof.
  split; [reflexivity|].
  pose proof (load_recipients_unnamed ascii_lower source_clean
                (cfg_literal env_four_set 587) EmptyString EmptyString eq_refl) as H.
  apply Forall_forall; intros row Hrow.
  rewrite Forall_forall in H; exact (proj1 (H row Hrow)).
Defined.
